(** * scripts/dump_user.py: license record recovery from an IDA Pro database

    A shallow embedding of [scripts/dump_user.py] and the properties of its
    three stages: the encryption heuristic [is_encrypted], the fixed-key
    transform [decrypt], the record decoder [parse_user_data], and the
    orchestrator [get_userdata].

    Python values are modelled as follows.
    - [bytes] is [list byte]; an [int] is [Z] (Python integers are unbounded).
    - A raised exception is the [Raise] branch of [result]; statements that
      can raise are sequenced with the bind notation below.
    - The builtins the script calls ([bytes.find], slicing, [int.from_bytes],
      [int.to_bytes], three-argument [pow], [struct.unpack_from], the [%]
      string formatting of [%02X], [bytes.decode('utf-8')] and
      [datetime.utcfromtimestamp]) are given executable definitions in
      [Module Py]. *)

From Stdlib Require Import ZArith Zpow_facts List String Ascii Bool Lia.
From Stdlib Require Import Strings.Byte.
Import ListNotations.
Local Open Scope Z_scope.

(** ** Python builtins used by the script *)

Module Py.

(** [bytes] objects. *)
Definition bytes := list byte.

(** The exceptions the script and the builtins it calls can raise. *)
Inductive exn : Type :=
| ValueError (msg : string)
| NotImplementedError (msg : string)
| StructError
| TypeError
| OverflowError
| UnicodeDecodeError
| KeyError.

Inductive result (A : Type) : Type :=
| Ok (a : A)
| Raise (e : exn).
Arguments Ok {A} a.
Arguments Raise {A} e.

Definition bind {A B : Type} (m : result A) (k : A -> result B) : result B :=
  match m with
  | Ok a => k a
  | Raise e => Raise e
  end.

Notation "x <- m ;; k" := (bind m (fun x => k))
  (at level 61, m at next level, right associativity).

(** The integer value of a byte, in [0, 255]. *)
Definition byte_val (b : byte) : Z := Z.of_N (Byte.to_N b).

(** The byte of an integer in [0, 255]. *)
Definition byte_of_Z (z : Z) : byte :=
  match Byte.of_N (Z.to_N z) with
  | Some b => b
  | None => x00
  end.

(** [len(buf)] *)
Definition len (buf : bytes) : Z := Z.of_nat (List.length buf).

(** Index normalisation of slices and of [find]: a negative index counts
    from the end, and the result is clamped to [0, len]. *)
Definition clamp_index (n i : Z) : Z :=
  let i' := if i <? 0 then i + n else i in
  Z.max 0 (Z.min n i').

(** [buf[lo:hi]] *)
Definition slice (buf : bytes) (lo hi : Z) : bytes :=
  let lo' := clamp_index (len buf) lo in
  let hi' := clamp_index (len buf) hi in
  firstn (Z.to_nat (hi' - lo')) (skipn (Z.to_nat lo') buf).

(** [l] starts with [sub]. *)
Fixpoint startswith (l sub : bytes) : bool :=
  match sub, l with
  | [], _ => true
  | _ :: _, [] => false
  | s :: sub', x :: l' => Byte.eqb s x && startswith l' sub'
  end.

(** Scan [l], whose first byte has index [i], for the first occurrence of
    [sub]; [-1] when there is none. *)
Fixpoint find_from (l sub : bytes) (i : Z) : Z :=
  if startswith l sub then i
  else match l with
       | [] => -1
       | _ :: t => find_from t sub (i + 1)
       end.

(** [buf.find(sub, start)]: the lowest index at or after [start] where
    [sub] occurs in [buf], or [-1]. *)
Definition find (buf sub : bytes) (start : Z) : Z :=
  if len buf <? start then -1
  else
    let s := clamp_index (len buf) start in
    find_from (skipn (Z.to_nat s) buf) sub s.

(** [int.from_bytes(bs, 'little')] *)
Fixpoint int_from_bytes_little (bs : bytes) : Z :=
  match bs with
  | [] => 0
  | b :: t => byte_val b + 256 * int_from_bytes_little t
  end.

(** [int.from_bytes(bs, 'big')] *)
Definition int_from_bytes_big (bs : bytes) : Z :=
  fold_left (fun acc b => acc * 256 + byte_val b) bs 0.

(** The [n] least significant base-256 digits of [v], least significant
    first. *)
Fixpoint le_digits (n : nat) (v : Z) : bytes :=
  match n with
  | O => []
  | S k => byte_of_Z (v mod 256) :: le_digits k (v / 256)
  end.

(** [v.to_bytes(n, 'big')]: raises [OverflowError] when [v] is negative or
    does not fit in [n] bytes. *)
Definition int_to_bytes_big (v : Z) (n : nat) : result bytes :=
  if v <? 0 then Raise OverflowError
  else if 256 ^ Z.of_nat n <=? v then Raise OverflowError
  else Ok (rev (le_digits n v)).

(** [pow(b, e, m)] for a non-negative exponent and a positive modulus, the
    only way the script calls it. *)
Definition pow_mod (b e m : Z) : Z := (b ^ e) mod m.

(** *** [struct.unpack_from] *)

(** The format characters the script uses: [B] (unsigned char), [H]
    (unsigned short) and [I] (unsigned int), in their standard sizes. *)
Inductive fmt_code : Type := fmt_B | fmt_H | fmt_I.

Definition code_size (c : fmt_code) : nat :=
  match c with
  | fmt_B => 1
  | fmt_H => 2
  | fmt_I => 4
  end.

(** [struct.calcsize(fmt)] *)
Definition calcsize (fmt : list fmt_code) : Z :=
  fold_right (fun c acc => Z.of_nat (code_size c) + acc) 0 fmt.

(** The fields of [fmt] read one after the other from the start of [data],
    each as a little-endian unsigned integer. *)
Fixpoint unpack_fields (fmt : list fmt_code) (data : bytes) : list Z :=
  match fmt with
  | [] => []
  | c :: cs =>
      int_from_bytes_little (firstn (code_size c) data)
        :: unpack_fields cs (skipn (code_size c) data)
  end.

(** [struct.unpack_from(fmt, buf, offset)] for a non-negative [offset]:
    raises [struct.error] when fewer than [calcsize fmt] bytes remain at
    [offset], and yields the tuple of fields otherwise. *)
Definition unpack_from (fmt : list fmt_code) (buf : bytes) (offset : Z)
  : result (list Z) :=
  if len buf - offset <? calcsize fmt then Raise StructError
  else Ok (unpack_fields fmt (skipn (Z.to_nat offset) buf)).

(** *** Values compared with [==] *)

(** The two kinds of value the script compares: an [int], and a tuple of
    [int]s as [struct.unpack_from] returns it. *)
Inductive pyval : Type :=
| PyInt (z : Z)
| PyTuple (items : list Z).

Fixpoint list_Z_eqb (xs ys : list Z) : bool :=
  match xs, ys with
  | [], [] => true
  | x :: xs', y :: ys' => (x =? y) && list_Z_eqb xs' ys'
  | _, _ => false
  end.

(** [a == b]: values of different types are never equal. *)
Definition py_eq (a b : pyval) : bool :=
  match a, b with
  | PyInt x, PyInt y => x =? y
  | PyTuple xs, PyTuple ys => list_Z_eqb xs ys
  | _, _ => false
  end.

(** *** [%]-formatting with [%02X] *)

Definition hex_digit_upper (d : Z) : ascii :=
  match String.get (Z.to_nat d) "0123456789ABCDEF" with
  | Some c => c
  | None => "0"%char
  end.

Fixpoint hex_upper_aux (fuel : nat) (n : Z) (acc : string) : string :=
  match fuel with
  | O => acc
  | S f =>
      let acc' := String (hex_digit_upper (n mod 16)) acc in
      if n / 16 =? 0 then acc' else hex_upper_aux f (n / 16) acc'
  end.

(** ['%X' % n] for [0 <= n]: the uppercase hexadecimal digits of [n],
    without leading zeros. *)
Definition format_X (n : Z) : string :=
  hex_upper_aux (S (Z.to_nat (Z.log2 n))) n "".

Fixpoint zeros_string (k : nat) : string :=
  match k with
  | O => ""
  | S k' => String "0" (zeros_string k')
  end.

(** ['%02X' % n]: [format_X n] padded with zeros on the left to a minimum
    width of two. *)
Definition format_02X (n : Z) : string :=
  let s := format_X n in
  (zeros_string (2 - String.length s) ++ s)%string.

(** A format string: literal text and [%02X] conversions. *)
Inductive fmt_piece : Type :=
| Lit (s : string)
| Conv02X.

(** [fmt % args]: raises [TypeError] when the number of arguments differs
    from the number of conversions. *)
Fixpoint format_percent (fmt : list fmt_piece) (args : list Z)
  : result string :=
  match fmt with
  | [] =>
      match args with
      | [] => Ok ""%string
      | _ :: _ => Raise TypeError
      end
  | Lit s :: fmt' =>
      rest <- format_percent fmt' args ;;
      Ok (s ++ rest)%string
  | Conv02X :: fmt' =>
      match args with
      | [] => Raise TypeError
      | a :: args' =>
          rest <- format_percent fmt' args' ;;
          Ok (format_02X a ++ rest)%string
      end
  end.

(** *** [bytes.decode('utf-8')] *)

(** A [str] is a sequence of Unicode code points. *)
Definition str := list Z.

Definition is_cont (b : byte) : bool :=
  (0x80 <=? byte_val b) && (byte_val b <=? 0xBF).

Definition in_range (lo hi : Z) (b : byte) : bool :=
  (lo <=? byte_val b) && (byte_val b <=? hi).

(** The payload bits of a continuation byte. *)
Definition cont_bits (b : byte) : Z := byte_val b - 0x80.

(** Strict UTF-8 decoding: overlong forms, surrogates, code points above
    U+10FFFF, stray continuation bytes and truncated sequences raise
    [UnicodeDecodeError]. *)
Fixpoint utf8_decode (bs : bytes) : result str :=
  match bs with
  | [] => Ok []
  | b0 :: t0 =>
      let v0 := byte_val b0 in
      if v0 <? 0x80 then
        rest <- utf8_decode t0 ;; Ok (v0 :: rest)
      else if in_range 0xC2 0xDF b0 then
        match t0 with
        | b1 :: t1 =>
            if is_cont b1 then
              rest <- utf8_decode t1 ;;
              Ok (((v0 - 0xC0) * 64 + cont_bits b1) :: rest)
            else Raise UnicodeDecodeError
        | _ => Raise UnicodeDecodeError
        end
      else if in_range 0xE0 0xEF b0 then
        match t0 with
        | b1 :: b2 :: t2 =>
            let ok1 :=
              if v0 =? 0xE0 then in_range 0xA0 0xBF b1
              else if v0 =? 0xED then in_range 0x80 0x9F b1
              else is_cont b1 in
            if ok1 && is_cont b2 then
              rest <- utf8_decode t2 ;;
              Ok ((((v0 - 0xE0) * 64 + cont_bits b1) * 64 + cont_bits b2)
                    :: rest)
            else Raise UnicodeDecodeError
        | _ => Raise UnicodeDecodeError
        end
      else if in_range 0xF0 0xF4 b0 then
        match t0 with
        | b1 :: b2 :: b3 :: t3 =>
            let ok1 :=
              if v0 =? 0xF0 then in_range 0x90 0xBF b1
              else if v0 =? 0xF4 then in_range 0x80 0x8F b1
              else is_cont b1 in
            if ok1 && is_cont b2 && is_cont b3 then
              rest <- utf8_decode t3 ;;
              Ok (((((v0 - 0xF0) * 64 + cont_bits b1) * 64 + cont_bits b2)
                     * 64 + cont_bits b3) :: rest)
            else Raise UnicodeDecodeError
        | _ => Raise UnicodeDecodeError
        end
      else Raise UnicodeDecodeError
  end.

(** *** [datetime.datetime.utcfromtimestamp] *)

(** A naive [datetime] with a zero microsecond field. *)
Record datetime : Type := mk_datetime {
  year : Z; month : Z; day : Z;
  hour : Z; minute : Z; second : Z
}.

Definition is_leap (y : Z) : bool :=
  (y mod 4 =? 0) && (negb (y mod 100 =? 0) || (y mod 400 =? 0)).

(** Days in the year before the first day of month [m] of a common year. *)
Definition days_before_month_tbl (m : Z) : Z :=
  nth (Z.to_nat m) [0; 0; 31; 59; 90; 120; 151; 181; 212; 243; 273; 304; 334] 0.

Definition days_before_month (y m : Z) : Z :=
  days_before_month_tbl m + (if (2 <? m) && is_leap y then 1 else 0).

Definition days_in_month (y m : Z) : Z :=
  if (m =? 2) && is_leap y then 29
  else nth (Z.to_nat m) [0; 31; 28; 31; 30; 31; 30; 31; 31; 30; 31; 30; 31] 0.

(** The proleptic Gregorian date of a day ordinal, day 1 being 0001-01-01,
    by the 400/100/4/1-year cycle decomposition. *)
Definition ord_to_ymd (ordinal : Z) : Z * Z * Z :=
  let o := ordinal - 1 in
  let n400 := o / 146097 in
  let n := o mod 146097 in
  let n100 := n / 36524 in
  let n := n mod 36524 in
  let n4 := n / 1461 in
  let n := n mod 1461 in
  let n1 := n / 365 in
  let n := n mod 365 in
  let y := n400 * 400 + 1 + n100 * 100 + n4 * 4 + n1 in
  if (n1 =? 4) || (n100 =? 4) then (y - 1, 12, 31)
  else
    let m := (n + 50) / 32 in
    let preceding := days_before_month y m in
    if n <? preceding then
      (y, m - 1, n - (preceding - days_in_month y (m - 1)) + 1)
    else (y, m, n - preceding + 1).

(** The ordinal of 1970-01-01. *)
Definition epoch_ordinal : Z := 719163.

(** [datetime.utcfromtimestamp(t)] for an integer [t]: raises [ValueError]
    when the year falls outside [1, 9999]. *)
Definition utcfromtimestamp (t : Z) : result datetime :=
  let days := t / 86400 in
  let secs := t mod 86400 in
  let '(y, m, d) := ord_to_ymd (epoch_ordinal + days) in
  if (y <? 1) || (9999 <? y) then Raise (ValueError "year is out of range")
  else Ok (mk_datetime y m d (secs / 3600) (secs mod 3600 / 60) (secs mod 60)).

End Py.

(** ** The script *)

Module DumpUser.
Import Py.

(** [b'\x00' * 4] *)
Definition zeros4 : bytes := repeat x00 4.

Definition is_encrypted (buf : bytes) : bool :=
  0x80 <=? find buf zeros4 0.

Definition HEXRAYS_PUBKEY : Z :=
  0x93AF7A8E3A6EB93D1B4D1FB7EC29299D2BC8F3CE5F84BFE88E47DDBDD5550C3CE3D2B16A2E2FBD0FBD919E8038BB05752EC92DD1498CB283AA087A93184F1DD9DD5D5DF7857322DFCD70890F814B58448071BBABB0FC8A7868B62EB29CC2664C8FE61DFBC5DB0EE8BF6ECF0B65250514576C4384582211896E5478F95C42FDED.

Definition decrypt (buf : bytes) : result bytes :=
  let enc := int_from_bytes_little (slice buf 0 0x80) in
  let dec := pow_mod enc 0x13 HEXRAYS_PUBKEY in
  int_to_bytes_big dec 0x80.

(** The dictionary [parse_user_data] returns. *)
Record user_data : Type := mk_user_data {
  ts1 : datetime;
  ts2 : datetime;
  id : string;
  name : str
}.

(** ["%02X-%02X%02X-%02X%02X-%02X"] *)
Definition id_format : list fmt_piece :=
  [Conv02X; Lit "-"; Conv02X; Conv02X; Lit "-"; Conv02X; Conv02X; Lit "-";
   Conv02X].

Definition parse_user_data (buf : bytes) : result user_data :=
  if negb (len buf =? 0x80) then Raise (ValueError "invalid user blob.")
  else
    version <- unpack_from [fmt_H] buf 0x3 ;;
    (* [version] is the tuple itself, and is compared with the integer 0 *)
    if py_eq (PyTuple version) (PyInt 0) then
      Raise (NotImplementedError "user blob version not supported.")
    else
      fields <- unpack_from [fmt_I; fmt_I; fmt_I] buf 0x11 ;;
      match fields with
      | [t1; _; t2] =>
          idbytes <- unpack_from (repeat fmt_B 6) buf 0x1D ;;
          id <- format_percent id_format idbytes ;;
          name <- utf8_decode (slice buf 0x23 (find buf [x00] 0x23)) ;;
          d1 <- utcfromtimestamp t1 ;;
          d2 <- utcfromtimestamp t2 ;;
          Ok (mk_user_data d1 d2 id name)
      | _ => Raise (ValueError "not enough values to unpack")
      end.

(** The one method of a netnode the script calls: [supval(index)]. *)
Record Netnode : Type := mk_netnode {
  supval : Z -> result bytes
}.

Definition get_userdata (netnode : Netnode) : result user_data :=
  userdata <- supval netnode 0x0 ;;
  userdata <- (if is_encrypted userdata then decrypt userdata
               else Ok (slice userdata 0 0x80)) ;;
  parse_user_data userdata.

End DumpUser.

(** ** Buffer layout, stated on the buffer itself

    The properties below are stated with these definitions, which read
    the buffer by index rather than through the builtins. *)

Module Layout.
Import Py DumpUser.

(** [sub] occurs in [buf] at index [i]. *)
Definition occurs_at (buf sub : bytes) (i : nat) : Prop :=
  forall k, (k < List.length sub)%nat ->
            nth_error buf (i + k) = nth_error sub k.

(** Four consecutive zero bytes start at index [i] of [buf]. *)
Definition zero_run_at (buf : bytes) (i : nat) : Prop :=
  forall k, (k < 4)%nat -> nth_error buf (i + k) = Some x00.

(** The integer value of the byte at offset [off]. *)
Definition byte_at (buf : bytes) (off : nat) : Z := byte_val (nth off buf x00).

(** The unsigned 16-bit little-endian integer at offset [off]. *)
Definition u16_le_at (buf : bytes) (off : nat) : Z :=
  byte_at buf off + 256 * byte_at buf (off + 1).

(** The unsigned 32-bit little-endian integer at offset [off]. *)
Definition u32_le_at (buf : bytes) (off : nat) : Z :=
  byte_at buf off + 256 * byte_at buf (off + 1)
  + 65536 * byte_at buf (off + 2) + 16777216 * byte_at buf (off + 3).

(** An uppercase hexadecimal digit: ['0'..'9'] then ['A'..'F']. *)
Definition upper_hex_digit (d : Z) : ascii :=
  if d <? 10 then ascii_of_nat (48 + Z.to_nat d)
  else ascii_of_nat (55 + Z.to_nat d).

(** A byte as two uppercase hexadecimal digits, high nibble first. *)
Definition hex_pair (b : Z) : string :=
  String (upper_hex_digit (b / 16)) (String (upper_hex_digit (b mod 16)) "").

(** The pattern [b0-b1b2-b3b4-b5] over the six bytes at [off]. *)
Definition license_id_at (buf : bytes) (off : nat) : string :=
  (hex_pair (byte_at buf off) ++ "-"
   ++ hex_pair (byte_at buf (off + 1)) ++ hex_pair (byte_at buf (off + 2))
   ++ "-"
   ++ hex_pair (byte_at buf (off + 3)) ++ hex_pair (byte_at buf (off + 4))
   ++ "-"
   ++ hex_pair (byte_at buf (off + 5)))%string.

(** The UTC instant 1970-01-01T00:00:00. *)
Definition epoch : datetime := mk_datetime 1970 1 1 0 0 0.

(** The number of days before January 1st of year [y], counted from
    0001-01-01. *)
Definition days_before_year (y : Z) : Z :=
  let p := y - 1 in p * 365 + p / 4 - p / 100 + p / 400.

(** The day ordinal of a date, 0001-01-01 being day 1. *)
Definition ymd_to_ord (y m d : Z) : Z :=
  days_before_year y + days_before_month y m + d.

(** The number of seconds between the epoch and an instant. *)
Definition seconds_since_epoch (t : datetime) : Z :=
  86400 * (ymd_to_ord (year t) (month t) (day t) - epoch_ordinal)
  + 3600 * hour t + 60 * minute t + second t.

(** The date computed for the day ordinal [o] is a calendar date and has
    that ordinal. *)
Definition day_ok (o : Z) : bool :=
  let '(y, m, d) := ord_to_ymd o in
  (ymd_to_ord y m d =? o) && (1 <=? m) && (m <=? 12)
  && (1 <=? d) && (d <=? days_in_month y m).

(** [day_ok] on the [n] ordinals from [o] on. *)
Fixpoint days_ok (n : nat) (o : Z) : bool :=
  match n with
  | O => true
  | S k => day_ok o && days_ok k (o + 1)
  end.

(** The number of days a 32-bit timestamp can fall on. *)
Definition u32_days : nat := Z.to_nat (2 ^ 32 / 86400 + 1).

(** The bytes of the name field as the decoder selects them. *)
Definition name_bytes (buf : bytes) : bytes :=
  slice buf 0x23 (find buf [x00] 0x23).

(** The error raised for a buffer of the wrong length. *)
Definition length_error : exn := ValueError "invalid user blob.".

(** A netnode whose [supval(0)] is [blob]. *)
Definition netnode_of (blob : bytes) : Netnode :=
  mk_netnode (fun _ => Ok blob).

(** A buffer from a list of byte values. *)
Definition bytes_of (l : list Z) : bytes := map byte_of_Z l.

(** A well-formed plaintext record: version 1, creation time
    2020-01-01T00:00:00Z, second timestamp 0, identifier bytes
    AB CD EF 01 23 45 and the name ["ACME CORP"]. *)
Definition sample_blob : bytes :=
  bytes_of ([0; 0; 0; 1; 0] ++ repeat 0 12
            ++ [0x00; 0xE1; 0x0B; 0x5E] ++ [0; 0; 0; 0] ++ [0; 0; 0; 0]
            ++ [0xAB; 0xCD; 0xEF; 0x01; 0x23; 0x45]
            ++ [0x41; 0x43; 0x4D; 0x45; 0x20; 0x43; 0x4F; 0x52; 0x50]
            ++ repeat 0 84).

(** The record [sample_blob] decodes to. *)
Definition sample_record : user_data :=
  mk_user_data (mk_datetime 2020 1 1 0 0 0) epoch "AB-CDEF-0123-45"
    [0x41; 0x43; 0x4D; 0x45; 0x20; 0x43; 0x4F; 0x52; 0x50].

(** 128 zero bytes: a buffer whose version field is 0. *)
Definition zero_blob : bytes := repeat x00 0x80.

(** 128 bytes ['A']: a buffer without any zero byte. *)
Definition unterminated_blob : bytes := repeat x41 0x80.

(** A 129-byte blob with a zero run at index 0 and the byte 0xFF, which is
    not valid UTF-8, as its whole name. *)
Definition bad_name_blob : bytes :=
  repeat x00 0x23 ++ [xff] ++ repeat x00 93.

End Layout.

(** ** Reading a record back

    Definitions used to state what a decoded record determines about the
    buffer it came from. *)

Module Readback.
Import Py DumpUser Layout.

(** The value of an uppercase hexadecimal digit. *)
Definition unhex_digit (c : ascii) : Z :=
  let n := Z.of_nat (nat_of_ascii c) in
  if n <? 58 then n - 48 else n - 55.

(** The six byte values an identifier of the form [XX-XXXX-XXXX-XX]
    denotes. *)
Definition unhex_id (s : string) : list Z :=
  match list_ascii_of_string s with
  | [a0; a1; _; b0; b1; b2; b3; _; c0; c1; c2; c3; _; e0; e1] =>
      [16 * unhex_digit a0 + unhex_digit a1;
       16 * unhex_digit b0 + unhex_digit b1;
       16 * unhex_digit b2 + unhex_digit b3;
       16 * unhex_digit c0 + unhex_digit c1;
       16 * unhex_digit c2 + unhex_digit c3;
       16 * unhex_digit e0 + unhex_digit e1]
  | _ => []
  end.

(** [c] is one of ['0'..'9'] or ['A'..'F']. *)
Definition is_upper_hex (c : ascii) : bool :=
  let n := Z.of_nat (nat_of_ascii c) in
  ((48 <=? n) && (n <=? 57)) || ((65 <=? n) && (n <=? 70)).

Definition is_dash (c : ascii) : bool := Ascii.eqb c "-".

(** [s] has the form [XX-XXXX-XXXX-XX], each [X] an uppercase hexadecimal
    digit. *)
Definition id_shape (s : string) : bool :=
  match list_ascii_of_string s with
  | [a0; a1; d0; b0; b1; b2; b3; d1; c0; c1; c2; c3; d2; e0; e1] =>
      is_upper_hex a0 && is_upper_hex a1 && is_dash d0
      && is_upper_hex b0 && is_upper_hex b1
      && is_upper_hex b2 && is_upper_hex b3 && is_dash d1
      && is_upper_hex c0 && is_upper_hex c1
      && is_upper_hex c2 && is_upper_hex c3 && is_dash d2
      && is_upper_hex e0 && is_upper_hex e1
  | _ => false
  end.

(** The first zero byte of [buf] at or after index [from] is at index
    [k]. *)
Definition first_nul_at (buf : bytes) (from k : nat) : Prop :=
  (from <= k)%nat
  /\ nth_error buf k = Some x00
  /\ forall j, (from <= j < k)%nat -> nth_error buf j <> Some x00.

(** The six identifier bytes of a buffer. *)
Definition id_bytes (buf : bytes) : bytes := firstn 6 (skipn 0x1D buf).

(** [sample_blob] with other bytes before offset 0x11, a version field of
    0 among them, and in the reserved field at 0x15. *)
Definition sample_blob_variant : bytes :=
  bytes_of ([9; 8; 7; 0; 0] ++ repeat 0x55 12
            ++ [0x00; 0xE1; 0x0B; 0x5E] ++ [1; 2; 3; 4] ++ [0; 0; 0; 0]
            ++ [0xAB; 0xCD; 0xEF; 0x01; 0x23; 0x45]
            ++ [0x41; 0x43; 0x4D; 0x45; 0x20; 0x43; 0x4F; 0x52; 0x50]
            ++ repeat 0 84).

End Readback.

(** ** Properties of the builtins *)

Module PyFacts.
Import Py.

Lemma byte_val_range (b : byte) : 0 <= byte_val b < 256.
Proof.
  unfold byte_val. pose proof (Byte.to_N_bounded b). lia.
Qed.

Lemma byte_of_Z_val (b : byte) : byte_of_Z (byte_val b) = b.
Proof.
  unfold byte_of_Z, byte_val. rewrite N2Z.id, Byte.of_to_N. reflexivity.
Qed.

Lemma byte_val_of_Z (z : Z) : 0 <= z < 256 -> byte_val (byte_of_Z z) = z.
Proof.
  intros Hz. unfold byte_of_Z, byte_val.
  destruct (Byte.of_N (Z.to_N z)) as [b|] eqn:E.
  - apply Byte.to_of_N in E. rewrite E. lia.
  - apply Byte.of_N_None_iff in E. lia.
Qed.

Lemma byte_val_inj (a b : byte) : byte_val a = byte_val b -> a = b.
Proof.
  intros H. rewrite <- (byte_of_Z_val a), <- (byte_of_Z_val b), H.
  reflexivity.
Qed.

Lemma byte_val_zero_iff (b : byte) : byte_val b = 0 <-> b = x00.
Proof.
  split.
  - intros H. apply byte_val_inj. rewrite H. reflexivity.
  - intros ->. reflexivity.
Qed.

(** *** Slices *)

Lemma len_nonneg (buf : bytes) : 0 <= len buf.
Proof. unfold len. lia. Qed.

Lemma slice_prefix (buf : bytes) (n : Z) :
  0 <= n -> slice buf 0 n = firstn (Z.to_nat n) buf.
Proof.
  intros Hn. unfold slice, clamp_index.
  pose proof (len_nonneg buf) as Hl.
  replace (0 <? 0) with false by reflexivity.
  destruct (n <? 0) eqn:E; [lia|].
  rewrite (Z.max_l 0 (Z.min (len buf) 0)) by lia.
  simpl skipn. rewrite Z.sub_0_r.
  destruct (Z.le_gt_cases n (len buf)) as [H|H].
  - rewrite Z.min_r, Z.max_r by lia. reflexivity.
  - rewrite Z.min_l, Z.max_r by lia.
    unfold len in *. rewrite Nat2Z.id.
    rewrite firstn_all. symmetry. apply firstn_all2. lia.
Qed.

(** *** Integers and their byte strings *)

Lemma int_from_bytes_little_range (bs : bytes) :
  0 <= int_from_bytes_little bs < 256 ^ len bs.
Proof.
  unfold len. induction bs as [|b t IH].
  - simpl. lia.
  - cbn [int_from_bytes_little List.length].
    rewrite Nat2Z.inj_succ, Z.pow_succ_r by lia.
    pose proof (byte_val_range b). lia.
Qed.

Lemma int_from_bytes_little_app (xs ys : bytes) :
  int_from_bytes_little (xs ++ ys)
  = int_from_bytes_little xs + 256 ^ len xs * int_from_bytes_little ys.
Proof.
  unfold len. induction xs as [|b t IH].
  - simpl. destruct (int_from_bytes_little ys); reflexivity.
  - cbn [app int_from_bytes_little List.length].
    rewrite IH, Nat2Z.inj_succ, Z.pow_succ_r by lia. ring.
Qed.

Lemma int_from_bytes_little_zeros (k : nat) :
  int_from_bytes_little (repeat x00 k) = 0.
Proof.
  induction k as [|k IH]; [reflexivity|].
  cbn [repeat int_from_bytes_little]. rewrite IH. reflexivity.
Qed.

(** Appending zero bytes to a little-endian byte string does not change
    the integer it denotes. *)
Lemma int_from_bytes_little_zero_extend (bs : bytes) (k : nat) :
  int_from_bytes_little (bs ++ repeat x00 k) = int_from_bytes_little bs.
Proof.
  rewrite int_from_bytes_little_app, int_from_bytes_little_zeros. ring.
Qed.

Lemma int_from_bytes_little_inj (xs ys : bytes) :
  List.length xs = List.length ys ->
  int_from_bytes_little xs = int_from_bytes_little ys -> xs = ys.
Proof.
  revert ys. induction xs as [|x xs IH]; intros [|y ys] Hlen Hv;
    try discriminate; [reflexivity|].
  cbn [int_from_bytes_little] in Hv.
  pose proof (byte_val_range x). pose proof (byte_val_range y).
  assert (byte_val x = byte_val y) by lia.
  f_equal.
  - now apply byte_val_inj.
  - apply IH; [now injection Hlen | lia].
Qed.

Lemma int_from_bytes_big_snoc (bs : bytes) (b : byte) :
  int_from_bytes_big (bs ++ [b]) = int_from_bytes_big bs * 256 + byte_val b.
Proof.
  unfold int_from_bytes_big. rewrite fold_left_app. reflexivity.
Qed.

(** Reading a byte string big-endian is reading its reversal
    little-endian. *)
Lemma int_from_bytes_big_rev (bs : bytes) :
  int_from_bytes_big (rev bs) = int_from_bytes_little bs.
Proof.
  induction bs as [|b t IH]; [reflexivity|].
  cbn [rev int_from_bytes_little].
  rewrite int_from_bytes_big_snoc, IH. ring.
Qed.

Lemma int_from_bytes_big_inj (xs ys : bytes) :
  List.length xs = List.length ys ->
  int_from_bytes_big xs = int_from_bytes_big ys -> xs = ys.
Proof.
  intros Hlen Hv.
  rewrite <- (rev_involutive xs), <- (rev_involutive ys) in Hv.
  rewrite !int_from_bytes_big_rev in Hv.
  apply int_from_bytes_little_inj in Hv.
  - rewrite <- (rev_involutive xs), <- (rev_involutive ys), Hv. reflexivity.
  - rewrite !length_rev. exact Hlen.
Qed.

Lemma le_digits_length (n : nat) (v : Z) : List.length (le_digits n v) = n.
Proof.
  revert v. induction n as [|n IH]; intros v; simpl; [|rewrite IH];
    reflexivity.
Qed.

Lemma le_digits_value (n : nat) (v : Z) :
  0 <= v < 256 ^ Z.of_nat n -> int_from_bytes_little (le_digits n v) = v.
Proof.
  revert v. induction n as [|n IH]; intros v Hv.
  - simpl in *. lia.
  - cbn [le_digits int_from_bytes_little].
    rewrite Nat2Z.inj_succ, Z.pow_succ_r in Hv by lia.
    rewrite byte_val_of_Z by (apply Z.mod_pos_bound; lia).
    rewrite IH.
    + pose proof (Z.div_mod v 256). lia.
    + split; [apply Z.div_pos; lia | apply Z.div_lt_upper_bound; lia].
Qed.

(** [int.to_bytes] succeeds exactly on the integers that fit, and its
    result reads back as the integer. *)
Lemma int_to_bytes_big_ok (v : Z) (n : nat) :
  0 <= v < 256 ^ Z.of_nat n ->
  exists out, int_to_bytes_big v n = Ok out
              /\ List.length out = n
              /\ int_from_bytes_big out = v.
Proof.
  intros Hv. unfold int_to_bytes_big.
  destruct (v <? 0) eqn:E1; [lia|].
  destruct (256 ^ Z.of_nat n <=? v) eqn:E2; [lia|].
  eexists; split; [reflexivity|]. split.
  - rewrite length_rev. apply le_digits_length.
  - rewrite int_from_bytes_big_rev. now apply le_digits_value.
Qed.

(** *** The builtins on small inputs *)

Example int_from_bytes_little_ex :
  int_from_bytes_little [x01; x02] = 0x0201.
Proof. reflexivity. Qed.

Example int_from_bytes_big_ex : int_from_bytes_big [x01; x02] = 0x0102.
Proof. reflexivity. Qed.

Example int_to_bytes_big_ex :
  int_to_bytes_big 0x0102 4 = Ok [x00; x00; x01; x02].
Proof. reflexivity. Qed.

Example int_to_bytes_big_overflow :
  int_to_bytes_big 0x10000 2 = Raise OverflowError.
Proof. reflexivity. Qed.

Example slice_negative_stop :
  slice [x01; x02; x03; x04; x05] 2 (-1) = [x03; x04].
Proof. reflexivity. Qed.

Example find_found : find [x01; x00; x02; x00] [x00] 2 = 3.
Proof. reflexivity. Qed.

Example find_not_found : find [x01; x00; x02; x03] [x00] 2 = -1.
Proof. reflexivity. Qed.

Example format_02X_ex : format_02X 0x0A = "0A"%string.
Proof. reflexivity. Qed.

Example utf8_decode_ex :
  utf8_decode [xe2; x82; xac; x41; xc3; xa9] = Ok [0x20AC; 0x41; 0xE9].
Proof. reflexivity. Qed.

Example utf8_decode_overlong :
  utf8_decode [xc0; x80] = Raise UnicodeDecodeError.
Proof. reflexivity. Qed.

Example tuple_is_not_int : py_eq (PyTuple [0]) (PyInt 0) = false.
Proof. reflexivity. Qed.

Example utcfromtimestamp_leap_day :
  utcfromtimestamp 951868799 = Ok (mk_datetime 2000 2 29 23 59 59).
Proof. reflexivity. Qed.

Example utcfromtimestamp_u32_max :
  utcfromtimestamp 0xFFFFFFFF = Ok (mk_datetime 2106 2 7 6 28 15).
Proof. reflexivity. Qed.

End PyFacts.

(** ** The fixed-key transform [decrypt] *)

Module DecryptFacts.
Import Py PyFacts DumpUser.

(** The modulus is a 1024-bit number. *)
Lemma HEXRAYS_PUBKEY_bits : 2 ^ 1023 <= HEXRAYS_PUBKEY < 2 ^ 1024.
Proof.
  split; [apply Z.leb_le | apply Z.ltb_lt]; vm_compute; reflexivity.
Qed.

Lemma HEXRAYS_PUBKEY_fits : 0 < HEXRAYS_PUBKEY < 256 ^ Z.of_nat 0x80.
Proof.
  pose proof HEXRAYS_PUBKEY_bits as [Hlo Hhi].
  replace (256 ^ Z.of_nat 0x80) with (2 ^ 1024) by (vm_compute; reflexivity).
  split; [|exact Hhi].
  eapply Z.lt_le_trans; [|exact Hlo]. apply Z.pow_pos_nonneg; lia.
Qed.

(** The exponentiation result is a residue of the modulus. *)
Lemma pow_mod_pubkey_range (b e : Z) :
  0 <= pow_mod b e HEXRAYS_PUBKEY < HEXRAYS_PUBKEY.
Proof.
  unfold pow_mod. apply Z.mod_pos_bound. apply HEXRAYS_PUBKEY_fits.
Qed.

(** [decrypt] only looks at [buf[:0x80]]. *)
Lemma decrypt_unfold (buf : bytes) :
  decrypt buf
  = int_to_bytes_big
      (pow_mod (int_from_bytes_little (firstn 0x80 buf)) 0x13 HEXRAYS_PUBKEY)
      0x80.
Proof.
  unfold decrypt. rewrite slice_prefix by lia. reflexivity.
Qed.

(** On every buffer [decrypt] returns 128 bytes whose big-endian value is
    the modular power of the little-endian value of [buf[:0x80]]. *)
Lemma decrypt_returns (buf : bytes) :
  exists out,
    decrypt buf = Ok out
    /\ List.length out = 0x80%nat
    /\ int_from_bytes_big out
       = pow_mod (int_from_bytes_little (firstn 0x80 buf)) 0x13 HEXRAYS_PUBKEY.
Proof.
  rewrite decrypt_unfold. apply int_to_bytes_big_ok.
  pose proof (pow_mod_pubkey_range
                (int_from_bytes_little (firstn 0x80 buf)) 0x13).
  pose proof HEXRAYS_PUBKEY_fits. lia.
Qed.

Lemma firstn_repeat_min {A : Type} (x : A) (n m : nat) :
  firstn n (repeat x m) = repeat x (Nat.min n m).
Proof.
  revert m. induction n as [|n IH]; intros [|m]; simpl; try reflexivity.
  now rewrite IH.
Qed.

Lemma firstn_zero_pad (buf : bytes) (n : nat) :
  firstn n (buf ++ repeat x00 n)
  = firstn n buf ++ repeat x00 (n - List.length buf).
Proof.
  rewrite firstn_app, firstn_repeat_min.
  destruct (Nat.le_gt_cases n (List.length buf)) as [H|H].
  - replace (n - List.length buf)%nat with 0%nat by lia.
    rewrite Nat.min_0_l. reflexivity.
  - rewrite Nat.min_l by lia. reflexivity.
Qed.

End DecryptFacts.

(** ** [bytes.find] and the encryption heuristic *)

Module FindFacts.
Import Py PyFacts DumpUser Layout.

Lemma startswith_iff (l sub : bytes) :
  startswith l sub = true <-> occurs_at l sub 0.
Proof.
  unfold occurs_at. revert l.
  induction sub as [|s sub IH]; intros l.
  - destruct l; simpl; split; intros; try reflexivity; lia.
  - destruct l as [|x l]; simpl.
    + split; [discriminate|]. intros H. specialize (H 0%nat). simpl in H.
      discriminate H. lia.
    + rewrite andb_true_iff, IH. split.
      * intros [Hx Ht] [|k] Hk; simpl.
        -- apply Byte.byte_dec_bl in Hx. now subst.
        -- apply Ht. lia.
      * intros H. split.
        -- specialize (H 0%nat). simpl in H.
           apply Byte.byte_dec_lb. assert (Some x = Some s) as E by (apply H; lia).
           now injection E.
        -- intros k Hk. apply (H (S k)). lia.
Qed.

Lemma startswith_skipn_iff (l sub : bytes) (i : nat) :
  startswith (skipn i l) sub = true <-> occurs_at l sub i.
Proof.
  rewrite startswith_iff. unfold occurs_at.
  split; intros H k Hk; specialize (H k Hk);
    rewrite nth_error_skipn in *; exact H.
Qed.

(** An occurrence of a non-empty [sub] starts inside the buffer. *)
Lemma occurs_at_inside (l sub : bytes) (i : nat) :
  sub <> [] -> occurs_at l sub i -> (i < List.length l)%nat.
Proof.
  intros Hsub H. destruct sub as [|s sub]; [congruence|].
  specialize (H 0%nat). simpl in H. rewrite Nat.add_0_r in H.
  apply nth_error_Some. rewrite H by lia. discriminate.
Qed.

(** The scan returns the first index where [sub] occurs, or [-1]. *)
Lemma find_from_spec (sub l : bytes) (i : Z) :
  (find_from l sub i = -1
   /\ forall j, (j <= List.length l)%nat -> ~ occurs_at l sub j)
  \/ (exists k, (k <= List.length l)%nat
                /\ find_from l sub i = i + Z.of_nat k
                /\ occurs_at l sub k
                /\ forall j, (j < k)%nat -> ~ occurs_at l sub j).
Proof.
  revert i. induction l as [|a l IH]; intros i; cbn [find_from].
  - destruct (startswith [] sub) eqn:E.
    + right. exists 0%nat. split; [simpl; lia|]. split; [lia|].
      split; [|intros j Hj; lia].
      now apply (startswith_skipn_iff [] sub 0).
    + left. split; [reflexivity|]. intros j Hj Hocc.
      apply startswith_skipn_iff in Hocc.
      simpl in Hj. replace j with 0%nat in Hocc by lia.
      cbn [skipn] in Hocc. congruence.
  - destruct (startswith (a :: l) sub) eqn:E.
    + right. exists 0%nat. split; [simpl; lia|]. split; [lia|].
      split; [|intros j Hj; lia].
      now apply (startswith_skipn_iff (a :: l) sub 0).
    + assert (H0 : ~ occurs_at (a :: l) sub 0).
      { intros Hocc. apply startswith_skipn_iff in Hocc.
        cbn [skipn] in Hocc. congruence. }
      assert (Hshift : forall j, occurs_at (a :: l) sub (S j)
                                 <-> occurs_at l sub j).
      { intros j. rewrite <- !startswith_skipn_iff. reflexivity. }
      destruct (IH (i + 1)) as [[Hr Hno] | (k & Hk & Hr & Hocc & Hmin)].
      * left. split; [exact Hr|]. intros [|j] Hj; [exact H0|].
        rewrite Hshift. apply Hno. simpl in Hj. lia.
      * right. exists (S k). split; [simpl; lia|]. split; [rewrite Hr; lia|].
        split; [now apply Hshift|].
        intros [|j] Hj; [exact H0|]. rewrite Hshift. apply Hmin. lia.
Qed.

Lemma find_start_0 (buf sub : bytes) : find buf sub 0 = find_from buf sub 0.
Proof.
  unfold find, clamp_index. pose proof (len_nonneg buf).
  destruct (len buf <? 0) eqn:E; [lia|].
  replace (0 <? 0) with false by reflexivity.
  rewrite Z.min_r, Z.max_l by lia. reflexivity.
Qed.

(** [buf.find(sub)] for a non-empty [sub]: the least index of an
    occurrence, or [-1] when [sub] occurs nowhere. *)
Lemma find_0_spec (buf sub : bytes) :
  sub <> [] ->
  (find buf sub 0 = -1 /\ forall j, ~ occurs_at buf sub j)
  \/ (exists k, find buf sub 0 = Z.of_nat k
                /\ occurs_at buf sub k
                /\ forall j, (j < k)%nat -> ~ occurs_at buf sub j).
Proof.
  intros Hsub. rewrite find_start_0.
  destruct (find_from_spec sub buf 0) as [[Hr Hno] | (k & Hk & Hr & Hocc & Hmin)].
  - left. split; [exact Hr|]. intros j Hocc.
    apply (Hno j); [|exact Hocc].
    pose proof (occurs_at_inside buf sub j Hsub Hocc). lia.
  - right. exists k. rewrite Hr. auto.
Qed.

Lemma zero_run_at_occurs (buf : bytes) (i : nat) :
  zero_run_at buf i <-> occurs_at buf zeros4 i.
Proof.
  unfold zero_run_at, occurs_at, zeros4.
  split; intros H k Hk; cbn [repeat List.length] in *;
    rewrite (H k Hk); destruct k as [|[|[|[|k]]]]; try reflexivity; lia.
Qed.

(** [buf.find(b'\x00', 0x23)] on a 128-byte buffer with no zero byte at or
    after offset 0x23 reports that nothing was found. *)
Lemma find_nul_absent (buf : bytes) :
  len buf = 0x80 -> ~ In x00 (skipn 0x23 buf) -> find buf [x00] 0x23 = -1.
Proof.
  intros Hlen Hno. unfold find. rewrite Hlen.
  change (0x80 <? 0x23) with false. cbv iota.
  change (clamp_index 0x80 0x23) with 0x23.
  change (Z.to_nat 0x23) with 0x23%nat.
  destruct (find_from_spec [x00] (skipn 0x23 buf) 0x23)
    as [[Hr _] | (k & _ & _ & Hocc & _)]; [exact Hr|].
  exfalso. apply Hno.
  specialize (Hocc 0%nat). cbn [List.length nth_error] in Hocc.
  rewrite Nat.add_0_r in Hocc.
  eapply nth_error_In. apply Hocc. lia.
Qed.

(** With nothing found, the slice [buf[0x23:-1]] is taken: the bytes at
    offsets 0x23 to 0x7E. *)
Lemma slice_to_minus_one (buf : bytes) :
  len buf = 0x80 -> slice buf 0x23 (-1) = firstn 92 (skipn 0x23 buf).
Proof.
  intros Hlen. unfold slice. rewrite Hlen. reflexivity.
Qed.

End FindFacts.

(** ** The record decoder [parse_user_data] *)

Module ParseFacts.
Import Py PyFacts DumpUser Layout FindFacts.

Lemma byte_at_range (buf : bytes) (off : nat) : 0 <= byte_at buf off < 256.
Proof. apply byte_val_range. Qed.

Lemma u32_le_at_range (buf : bytes) (off : nat) :
  0 <= u32_le_at buf off < 2 ^ 32.
Proof.
  unfold u32_le_at.
  pose proof (byte_at_range buf off). pose proof (byte_at_range buf (off + 1)).
  pose proof (byte_at_range buf (off + 2)).
  pose proof (byte_at_range buf (off + 3)).
  change (2 ^ 32) with 4294967296. lia.
Qed.

(** *** [struct.unpack_from] on a buffer that is long enough *)

Lemma unpack_from_ok (fmt : list fmt_code) (buf : bytes) (off : Z) :
  calcsize fmt <= len buf - off ->
  unpack_from fmt buf off
  = Ok (unpack_fields fmt (skipn (Z.to_nat off) buf)).
Proof.
  intros H. unfold unpack_from.
  destruct (len buf - off <? calcsize fmt) eqn:E; [lia | reflexivity].
Qed.

Lemma unpack_from_short (fmt : list fmt_code) (buf : bytes) (off : Z) :
  len buf - off < calcsize fmt -> unpack_from fmt buf off = Raise StructError.
Proof.
  intros H. unfold unpack_from.
  destruct (len buf - off <? calcsize fmt) eqn:E; [reflexivity | lia].
Qed.

Lemma le_firstn_1 (data : bytes) :
  int_from_bytes_little (firstn 1 data) = byte_at data 0.
Proof.
  unfold byte_at. destruct data as [|a t]; cbn; [reflexivity | lia].
Qed.

Lemma le_firstn_2 (data : bytes) :
  int_from_bytes_little (firstn 2 data) = u16_le_at data 0.
Proof.
  unfold u16_le_at, byte_at.
  destruct data as [|a [|b t]]; cbn [firstn int_from_bytes_little nth Nat.add];
    change (byte_val x00) with 0; lia.
Qed.

Lemma le_firstn_4 (data : bytes) :
  int_from_bytes_little (firstn 4 data) = u32_le_at data 0.
Proof.
  unfold u32_le_at, byte_at.
  destruct data as [|a [|b [|c [|d t]]]];
    cbn [firstn int_from_bytes_little nth Nat.add];
    change (byte_val x00) with 0; lia.
Qed.

Lemma byte_at_skipn (buf : bytes) (n k : nat) :
  byte_at (skipn n buf) k = byte_at buf (n + k).
Proof. unfold byte_at. now rewrite nth_skipn. Qed.

Lemma u16_le_at_skipn (buf : bytes) (n : nat) :
  u16_le_at (skipn n buf) 0 = u16_le_at buf n.
Proof.
  unfold u16_le_at. rewrite !byte_at_skipn.
  now rewrite Nat.add_0_r.
Qed.

Lemma u32_le_at_skipn (buf : bytes) (n : nat) :
  u32_le_at (skipn n buf) 0 = u32_le_at buf n.
Proof.
  unfold u32_le_at. rewrite !byte_at_skipn.
  now rewrite Nat.add_0_r.
Qed.

Lemma unpack_H (buf : bytes) (off : nat) :
  2 <= len buf - Z.of_nat off ->
  unpack_from [fmt_H] buf (Z.of_nat off) = Ok [u16_le_at buf off].
Proof.
  intros H. rewrite unpack_from_ok by exact H.
  rewrite Nat2Z.id. cbn [unpack_fields code_size].
  now rewrite le_firstn_2, u16_le_at_skipn.
Qed.

Lemma unpack_III (buf : bytes) (off : nat) :
  12 <= len buf - Z.of_nat off ->
  unpack_from [fmt_I; fmt_I; fmt_I] buf (Z.of_nat off)
  = Ok [u32_le_at buf off; u32_le_at buf (off + 4); u32_le_at buf (off + 8)].
Proof.
  intros H. rewrite unpack_from_ok by exact H.
  rewrite Nat2Z.id. cbn [unpack_fields code_size].
  rewrite !skipn_skipn, !le_firstn_4, !u32_le_at_skipn.
  replace (4 + (4 + off))%nat with (off + 8)%nat by lia.
  replace (4 + off)%nat with (off + 4)%nat by lia.
  reflexivity.
Qed.

Lemma unpack_6B (buf : bytes) (off : nat) :
  6 <= len buf - Z.of_nat off ->
  unpack_from (repeat fmt_B 6) buf (Z.of_nat off)
  = Ok [byte_at buf off; byte_at buf (off + 1); byte_at buf (off + 2);
        byte_at buf (off + 3); byte_at buf (off + 4); byte_at buf (off + 5)].
Proof.
  intros H. rewrite unpack_from_ok by exact H.
  rewrite Nat2Z.id. cbn [repeat unpack_fields code_size].
  rewrite !skipn_skipn, !le_firstn_1, !byte_at_skipn.
  cbn [Nat.add]. rewrite !Nat.add_0_r.
  replace (S (S (S (S (S off))))) with (off + 5)%nat by lia.
  replace (S (S (S (S off)))) with (off + 4)%nat by lia.
  replace (S (S (S off))) with (off + 3)%nat by lia.
  replace (S (S off)) with (off + 2)%nat by lia.
  replace (S off) with (off + 1)%nat by lia.
  reflexivity.
Qed.

(** *** The [%02X] conversion on byte values *)

Lemma format_02X_byte (b : byte) : format_02X (byte_val b) = hex_pair (byte_val b).
Proof. destruct b; vm_compute; reflexivity. Qed.

Lemma format_02X_byte_at (buf : bytes) (off : nat) :
  format_02X (byte_at buf off) = hex_pair (byte_at buf off).
Proof. apply format_02X_byte. Qed.

Lemma format_id (buf : bytes) (off : nat) :
  format_percent id_format
    [byte_at buf off; byte_at buf (off + 1); byte_at buf (off + 2);
     byte_at buf (off + 3); byte_at buf (off + 4); byte_at buf (off + 5)]
  = Ok (license_id_at buf off).
Proof.
  unfold id_format, license_id_at. cbn [format_percent bind].
  rewrite !format_02X_byte_at.
  change (hex_pair (byte_at buf (off + 5)) ++ "")%string
    with (hex_pair (byte_at buf (off + 5))).
  reflexivity.
Qed.

(** *** [utcfromtimestamp] on 32-bit timestamps *)

Lemma ord_to_ymd_year (o : Z) :
  1 <= o <= 800000 -> 1 <= fst (fst (ord_to_ymd o)) <= 9999.
Proof.
  intros Ho. unfold ord_to_ymd. cbv zeta.
  destruct (_ || _) eqn:E; cbn [fst].
  - apply orb_true_iff in E. rewrite !Z.eqb_eq in E.
    Z.div_mod_to_equations. lia.
  - destruct (_ <? _); cbn [fst]; Z.div_mod_to_equations; lia.
Qed.

(** A 32-bit timestamp always denotes an instant: the year stays within
    the range of [datetime]. *)
Lemma utcfromtimestamp_u32 (t : Z) :
  0 <= t < 2 ^ 32 -> exists d, utcfromtimestamp t = Ok d.
Proof.
  intros Ht. unfold utcfromtimestamp.
  assert (Hd : 0 <= t / 86400 <= 49711).
  { change (2 ^ 32) with 4294967296 in Ht. Z.div_mod_to_equations. lia. }
  pose proof (ord_to_ymd_year (epoch_ordinal + t / 86400)) as Hy.
  unfold epoch_ordinal in *.
  destruct (ord_to_ymd (719163 + t / 86400)) as [[y m] d].
  cbn [fst] in Hy.
  destruct ((y <? 1) || (9999 <? y)) eqn:E.
  - apply orb_true_iff in E. lia.
  - eexists. reflexivity.
Qed.

Lemma utcfromtimestamp_0 : utcfromtimestamp 0 = Ok epoch.
Proof. reflexivity. Qed.

Lemma days_ok_forall (n : nat) (o k : Z) :
  days_ok n o = true -> 0 <= k < Z.of_nat n -> day_ok (o + k) = true.
Proof.
  revert o k. induction n as [|n IH]; intros o k H Hk; [lia|].
  cbn [days_ok] in H. apply andb_true_iff in H. destruct H as [H0 H1].
  destruct (Z.eq_dec k 0) as [->|Hne].
  - now rewrite Z.add_0_r.
  - replace (o + k) with (o + 1 + (k - 1)) by lia. apply IH; [exact H1 | lia].
Qed.

(** Every day a 32-bit timestamp can fall on gets a calendar date with the
    right ordinal: checked by running the conversion on all of them. *)
Lemma all_days_ok : days_ok u32_days epoch_ordinal = true.
Proof. vm_compute. reflexivity. Qed.

(** The instant of a 32-bit timestamp lies that many seconds after the
    epoch, and its fields are those of a calendar date and a time of
    day. *)
Lemma utcfromtimestamp_seconds (t : Z) (d : datetime) :
  0 <= t < 2 ^ 32 ->
  utcfromtimestamp t = Ok d ->
  seconds_since_epoch d = t
  /\ 1 <= month d <= 12
  /\ 1 <= day d <= days_in_month (year d) (month d)
  /\ 0 <= hour d < 24 /\ 0 <= minute d < 60 /\ 0 <= second d < 60.
Proof.
  intros Ht H. change (2 ^ 32) with 4294967296 in Ht.
  assert (Hd : 0 <= t / 86400 < Z.of_nat u32_days).
  { change (Z.of_nat u32_days) with 49711. Z.div_mod_to_equations. lia. }
  pose proof (days_ok_forall _ _ _ all_days_ok Hd) as Hok.
  unfold day_ok in Hok. unfold utcfromtimestamp in H.
  destruct (ord_to_ymd (epoch_ordinal + t / 86400)) as [[y m] dd].
  destruct ((y <? 1) || (9999 <? y)); [discriminate H|].
  injection H as <-. unfold seconds_since_epoch.
  cbn [year month day hour minute second].
  rewrite !andb_true_iff in Hok.
  destruct Hok as ((((Ho & Hm1) & Hm2) & Hd1) & Hd2).
  apply Z.eqb_eq in Ho. rewrite Ho.
  apply Z.leb_le in Hm1, Hm2, Hd1, Hd2.
  clear Ho Hd.
  split; [Z.div_mod_to_equations; lia|].
  split; [lia|]. split; [lia|].
  repeat split; Z.div_mod_to_equations; lia.
Qed.

(** *** [bytes.decode('utf-8')] *)

Lemma bind_raise_inv {A B : Type} (m : result A) (k : A -> result B) (e : exn) :
  bind m k = Raise e ->
  m = Raise e \/ exists a, m = Ok a /\ k a = Raise e.
Proof.
  destruct m as [a|e']; cbn [bind]; intros H.
  - right. eauto.
  - left. now injection H as ->.
Qed.

Lemma utf8_decode_raise_fuel (n : nat) (bs : bytes) (e : exn) :
  (List.length bs <= n)%nat ->
  utf8_decode bs = Raise e -> e = UnicodeDecodeError.
Proof.
  revert bs. induction n as [|n IH]; intros bs Hlen H.
  - destruct bs; [discriminate H | simpl in Hlen; lia].
  - destruct bs as [|b0 t0]; [discriminate H|].
    cbn [utf8_decode] in H. cbv zeta in H. cbn [List.length] in Hlen.
    repeat match type of H with
           | (if ?c then _ else _) = _ => destruct c
           | match ?l with [] => _ | _ :: _ => _ end = _ =>
               destruct l; cbn [List.length] in Hlen
           | Raise _ = Raise _ => injection H as <-; reflexivity
           | bind _ _ = Raise _ =>
               apply bind_raise_inv in H;
               destruct H as [H | (a & _ & H)];
               [apply IH in H; [exact H | lia] | discriminate H]
           end.
Qed.

(** The only exception decoding raises is [UnicodeDecodeError]. *)
Lemma utf8_decode_outcomes (bs : bytes) :
  utf8_decode bs = Raise UnicodeDecodeError \/ exists s, utf8_decode bs = Ok s.
Proof.
  destruct (utf8_decode bs) as [s|e] eqn:E.
  - right. eauto.
  - left. f_equal. eapply utf8_decode_raise_fuel; [reflexivity | exact E].
Qed.

(** *** The decoder on a 128-byte buffer *)

(** On a 128-byte buffer every fixed-offset read succeeds, the version
    test is never taken, and the outcome depends on the name bytes only. *)
Lemma parse_user_data_128 (buf : bytes) :
  len buf = 0x80 ->
  exists d1 d2,
    utcfromtimestamp (u32_le_at buf 0x11) = Ok d1
    /\ utcfromtimestamp (u32_le_at buf 0x19) = Ok d2
    /\ parse_user_data buf
       = (name <- utf8_decode (name_bytes buf) ;;
          Ok (mk_user_data d1 d2 (license_id_at buf 0x1D) name)).
Proof.
  intros Hlen.
  destruct (utcfromtimestamp_u32 _ (u32_le_at_range buf 0x11)) as [d1 H1].
  destruct (utcfromtimestamp_u32 _ (u32_le_at_range buf 0x19)) as [d2 H2].
  exists d1, d2. split; [exact H1|]. split; [exact H2|].
  unfold parse_user_data. rewrite Hlen. cbn [Z.eqb Pos.eqb negb].
  change 0x3 with (Z.of_nat 3). rewrite unpack_H by (rewrite Hlen; lia).
  cbn [bind py_eq].
  change 0x11 with (Z.of_nat 0x11). rewrite unpack_III by (rewrite Hlen; lia).
  cbn [bind].
  change 0x1D with (Z.of_nat 0x1D). rewrite unpack_6B by (rewrite Hlen; lia).
  cbn [bind]. rewrite format_id. cbn [bind].
  fold (name_bytes buf).
  change (0x11 + 8)%nat with 0x19%nat. rewrite H1, H2.
  destruct (utf8_decode (name_bytes buf)); reflexivity.
Qed.

Lemma parse_user_data_len (buf : bytes) (r : user_data) :
  parse_user_data buf = Ok r -> len buf = 0x80.
Proof.
  unfold parse_user_data. destruct (len buf =? 0x80) eqn:E.
  - intros _. now apply Z.eqb_eq.
  - discriminate.
Qed.

(** Every field of a returned record, in terms of the buffer. *)
Lemma parse_user_data_fields (buf : bytes) (r : user_data) :
  parse_user_data buf = Ok r ->
  len buf = 0x80
  /\ utcfromtimestamp (u32_le_at buf 0x11) = Ok (ts1 r)
  /\ utcfromtimestamp (u32_le_at buf 0x19) = Ok (ts2 r)
  /\ id r = license_id_at buf 0x1D
  /\ utf8_decode (name_bytes buf) = Ok (name r).
Proof.
  intros H. pose proof (parse_user_data_len buf r H) as Hlen.
  destruct (parse_user_data_128 buf Hlen) as (d1 & d2 & H1 & H2 & Hp).
  rewrite Hp in H.
  destruct (utf8_decode (name_bytes buf)) as [s|e]; cbn [bind] in H;
    [|discriminate H].
  injection H as <-. cbn [ts1 ts2 id name]. auto.
Qed.

(** The length test comes first: a buffer of any other length is rejected
    whatever it contains. *)
Lemma parse_user_data_wrong_length (buf : bytes) :
  len buf <> 0x80 -> parse_user_data buf = Raise length_error.
Proof.
  intros Hlen. unfold parse_user_data. destruct (len buf =? 0x80) eqn:E.
  - apply Z.eqb_eq in E. contradiction.
  - reflexivity.
Qed.

(** A 128-byte buffer either decodes to a record or fails in the UTF-8
    decoding of the name. *)
Lemma parse_user_data_outcomes (buf : bytes) :
  len buf = 0x80 ->
  parse_user_data buf = Raise UnicodeDecodeError
  \/ exists r, parse_user_data buf = Ok r.
Proof.
  intros Hlen.
  destruct (parse_user_data_128 buf Hlen) as (d1 & d2 & _ & _ & Hp).
  rewrite Hp.
  destruct (utf8_decode_outcomes (name_bytes buf)) as [E | [s E]];
    rewrite E; cbn [bind]; eauto.
Qed.

(** The version test never raises: the tuple that [struct.unpack_from]
    returns is not equal to the integer 0. *)
Lemma parse_user_data_no_version_error (buf : bytes) (msg : string) :
  parse_user_data buf <> Raise (NotImplementedError msg).
Proof.
  intros H. destruct (Z.eq_dec (len buf) 0x80) as [E|E].
  - destruct (parse_user_data_outcomes buf E) as [H' | [r H']]; congruence.
  - unfold parse_user_data in H. destruct (len buf =? 0x80) eqn:E'.
    + apply Z.eqb_eq in E'. contradiction.
    + discriminate H.
Qed.

(** Without a terminator the name is decoded from the bytes at offsets
    0x23 to 0x7E. *)
Lemma name_bytes_missing_terminator (buf : bytes) :
  len buf = 0x80 -> ~ In x00 (skipn 0x23 buf) ->
  name_bytes buf = firstn 92 (skipn 0x23 buf).
Proof.
  intros Hlen Hno. unfold name_bytes.
  rewrite find_nul_absent by assumption. now apply slice_to_minus_one.
Qed.

End ParseFacts.

(** ** The properties of the script *)

Import Py DumpUser Layout PyFacts DecryptFacts FindFacts ParseFacts.

(** *** [is_encrypted] *)

(** C4. For every byte buffer, [is_encrypted] returns true exactly when the
    buffer contains a run of four consecutive zero bytes whose earliest
    occurrence starts at an index of at least 0x80; when no such run exists
    anywhere it returns false.  It is a total function: it never raises. *)
Theorem is_encrypted_iff_first_zero_run (buf : bytes) :
  (is_encrypted buf = true
   <-> exists i, (0x80 <= i)%nat
                 /\ zero_run_at buf i
                 /\ forall j, (j < i)%nat -> ~ zero_run_at buf j)
  /\ ((forall i, ~ zero_run_at buf i) -> is_encrypted buf = false).
Proof.
  unfold is_encrypted.
  destruct (find_0_spec buf zeros4) as [[Hr Hno] | (k & Hr & Hocc & Hmin)];
    [discriminate | |]; rewrite Hr.
  - split; [|reflexivity]. split; [discriminate|].
    intros (i & _ & Hrun & _). exfalso.
    apply (Hno i). now apply zero_run_at_occurs.
  - split.
    + rewrite Z.leb_le. split.
      * intros Hk. exists k. split; [lia|]. split.
        -- now apply zero_run_at_occurs.
        -- intros j Hj Hrun. apply (Hmin j Hj). now apply zero_run_at_occurs.
      * intros (i & Hi & Hrun & Hfirst).
        destruct (Nat.lt_trichotomy i k) as [Hlt | [Heq | Hgt]].
        -- exfalso. apply (Hmin i Hlt). now apply zero_run_at_occurs.
        -- lia.
        -- exfalso. apply (Hfirst k Hgt). now apply zero_run_at_occurs.
    + intros Hnone. exfalso. apply (Hnone k). now apply zero_run_at_occurs.
Qed.

(** A buffer without any zero byte is classified as plaintext. *)
Lemma is_encrypted_iff_first_zero_run_witness :
  is_encrypted (bytes_of [1; 2; 3]) = false.
Proof.
  apply (is_encrypted_iff_first_zero_run (bytes_of [1; 2; 3])).
  intros i H. assert (H0 := H 0%nat ltac:(lia)).
  rewrite Nat.add_0_r in H0.
  destruct i as [|[|[|[|i]]]]; discriminate H0.
Defined.

(** The four placements of the first zero run: at 0, at 0x7F, at 0x80, and
    nowhere. *)
Example is_encrypted_run_at_0 :
  is_encrypted (repeat x00 4 ++ repeat x01 200) = false.
Proof. vm_compute. reflexivity. Qed.

Example is_encrypted_run_at_0x7F :
  is_encrypted (repeat x01 0x7F ++ repeat x00 4 ++ repeat x01 20) = false.
Proof. vm_compute. reflexivity. Qed.

Example is_encrypted_run_at_0x80 :
  is_encrypted (repeat x01 0x80 ++ repeat x00 4 ++ repeat x01 20) = true.
Proof. vm_compute. reflexivity. Qed.

Example is_encrypted_no_run :
  is_encrypted (repeat x01 200) = false.
Proof. vm_compute. reflexivity. Qed.

(** *** [decrypt] *)

(** C3. For every buffer of at least 128 bytes, [decrypt] returns exactly
    the big-endian 128-byte serialization of [pow(i, 0x13, n)], where [i] is
    the first 128 bytes of the buffer read as a little-endian unsigned
    integer and [n] is the fixed 1024-bit modulus; in particular the result
    has length 128. *)
Theorem decrypt_is_modexp_big_endian (buf : bytes) :
  0x80 <= len buf ->
  2 ^ 1023 <= HEXRAYS_PUBKEY < 2 ^ 1024
  /\ List.length (firstn 0x80 buf) = 0x80%nat
  /\ exists out,
       decrypt buf = Ok out
       /\ List.length out = 0x80%nat
       /\ int_from_bytes_big out
          = pow_mod (int_from_bytes_little (firstn 0x80 buf)) 0x13
              HEXRAYS_PUBKEY
       /\ forall out',
            List.length out' = 0x80%nat ->
            int_from_bytes_big out'
            = pow_mod (int_from_bytes_little (firstn 0x80 buf)) 0x13
                HEXRAYS_PUBKEY ->
            out' = out.
Proof.
  intros Hlen. split; [exact HEXRAYS_PUBKEY_bits|].
  split; [rewrite length_firstn; unfold len in Hlen; lia|].
  destruct (decrypt_returns buf) as (out & Hd & Hl & Hv).
  exists out. split; [exact Hd|]. split; [exact Hl|]. split; [exact Hv|].
  intros out' Hl' Hv'. apply int_from_bytes_big_inj.
  - now rewrite Hl, Hl'.
  - now rewrite Hv', Hv.
Qed.

Lemma decrypt_is_modexp_big_endian_witness :
  exists out, decrypt (repeat x01 0x80) = Ok out
              /\ List.length out = 0x80%nat.
Proof.
  destruct (decrypt_is_modexp_big_endian (repeat x01 0x80))
    as (_ & _ & out & Hd & Hl & _).
  - vm_compute. discriminate.
  - exists out. split; [exact Hd | exact Hl].
Defined.

(** C8. For every buffer of at least 128 bytes, [decrypt(buf)] equals
    [decrypt(buf[:128])]: the bytes at offsets 128 and beyond have no
    influence on the output. *)
Theorem decrypt_ignores_tail (buf : bytes) :
  0x80 <= len buf ->
  decrypt buf = decrypt (slice buf 0 0x80)
  /\ len (slice buf 0 0x80) = 0x80
  /\ forall buf', firstn 0x80 buf' = firstn 0x80 buf ->
                  decrypt buf' = decrypt buf.
Proof.
  intros Hlen. rewrite slice_prefix by lia.
  change (Z.to_nat 0x80) with 0x80%nat. split; [|split].
  - rewrite !decrypt_unfold. now rewrite firstn_firstn.
  - unfold len in *. rewrite length_firstn. lia.
  - intros buf' H. rewrite !decrypt_unfold. now rewrite H.
Qed.

Lemma decrypt_ignores_tail_witness :
  decrypt (repeat x01 0x80 ++ repeat x02 7)
  = decrypt (slice (repeat x01 0x80 ++ repeat x02 7) 0 0x80).
Proof.
  refine (proj1 (decrypt_ignores_tail (repeat x01 0x80 ++ repeat x02 7) _)).
  vm_compute. discriminate.
Defined.

(** C9. [decrypt] is total over buffers of every length, including fewer
    than 128 bytes: a short buffer is read as a zero-extended little-endian
    integer, and the result is still exactly 128 bytes, because
    [pow(i, 0x13, n)] is strictly less than the 1024-bit modulus [n], so its
    big-endian serialization into 128 bytes never fails. *)
Theorem decrypt_total (buf : bytes) :
  List.length (firstn 0x80 (buf ++ repeat x00 0x80)) = 0x80%nat
  /\ int_from_bytes_little (slice buf 0 0x80)
     = int_from_bytes_little (firstn 0x80 (buf ++ repeat x00 0x80))
  /\ 0 <= pow_mod (int_from_bytes_little (slice buf 0 0x80)) 0x13
            HEXRAYS_PUBKEY
       < HEXRAYS_PUBKEY
  /\ HEXRAYS_PUBKEY < 2 ^ 1024
  /\ (exists out,
        decrypt buf = Ok out
        /\ List.length out = 0x80%nat
        /\ int_from_bytes_big out
           = pow_mod (int_from_bytes_little (slice buf 0 0x80)) 0x13
               HEXRAYS_PUBKEY)
  /\ decrypt buf = decrypt (firstn 0x80 (buf ++ repeat x00 0x80)).
Proof.
  assert (Hpad : int_from_bytes_little
                   (firstn 0x80 (firstn 0x80 (buf ++ repeat x00 0x80)))
                 = int_from_bytes_little (firstn 0x80 buf)).
  { rewrite firstn_firstn, Nat.min_id, firstn_zero_pad.
    apply int_from_bytes_little_zero_extend. }
  rewrite slice_prefix by lia. change (Z.to_nat 0x80) with 0x80%nat.
  split.
  { rewrite length_firstn, length_app, repeat_length. lia. }
  split.
  { rewrite <- Hpad. now rewrite firstn_firstn, Nat.min_id. }
  split; [apply pow_mod_pubkey_range|].
  split; [apply HEXRAYS_PUBKEY_bits|].
  split.
  - apply decrypt_returns.
  - rewrite !decrypt_unfold. now rewrite Hpad.
Qed.

(** A three-byte buffer is decrypted like its zero-extension. *)
Example decrypt_short_buffer :
  exists out, decrypt (bytes_of [1; 2; 3]) = Ok out
              /\ List.length out = 0x80%nat
              /\ decrypt (bytes_of [1; 2; 3])
                 = decrypt (bytes_of [1; 2; 3] ++ repeat x00 125).
Proof.
  eexists. split; [vm_compute; reflexivity|].
  split; vm_compute; reflexivity.
Qed.

(** *** [parse_user_data] *)

(** C7. For every input buffer whose length is not exactly 128 bytes,
    [parse_user_data] raises the length error ([ValueError('invalid user
    blob.')]) before reading any field, and no partial record is
    returned. *)
Theorem parse_user_data_length_error (buf : bytes) :
  len buf <> 0x80 ->
  parse_user_data buf = Raise length_error
  /\ forall r, parse_user_data buf <> Ok r.
Proof.
  intros Hlen.
  pose proof (parse_user_data_wrong_length buf Hlen) as H.
  split; [exact H|]. intros r Hr. rewrite H in Hr. discriminate Hr.
Qed.

Lemma parse_user_data_length_error_witness :
  parse_user_data (bytes_of [1; 2; 3]) = Raise length_error.
Proof.
  refine (proj1 (parse_user_data_length_error (bytes_of [1; 2; 3]) _)).
  vm_compute. discriminate.
Defined.

(** A buffer too short for the fields at their offsets still gets the
    length error, not [struct.error]. *)
Example parse_user_data_empty : parse_user_data [] = Raise length_error.
Proof. reflexivity. Qed.

(** C1. The version field of [zero_blob], the unsigned 16-bit
    little-endian integer at offset 0x03, is 0, and [parse_user_data]
    returns a record for it: the version error is not raised. *)
Theorem parse_user_data_version_zero_returns :
  len zero_blob = 0x80
  /\ u16_le_at zero_blob 3 = 0
  /\ unpack_from [fmt_H] zero_blob 0x3 = Ok [0]
  /\ parse_user_data zero_blob
     = Ok (mk_user_data epoch epoch "00-0000-0000-00" []).
Proof.
  repeat split; vm_compute; reflexivity.
Qed.

(** C2, as the decoder behaves.  For every 128-byte buffer with no zero
    byte at any offset from 0x23 on, the search for the terminator reports
    nothing found and no error is raised for it: [parse_user_data] either
    raises the UTF-8 decoding error, with no partial record, or returns a
    complete record whose timestamps and identifier are decoded from their
    fixed offsets. *)
Theorem parse_user_data_missing_terminator (buf : bytes) :
  len buf = 0x80 ->
  ~ In x00 (skipn 0x23 buf) ->
  find buf [x00] 0x23 = -1
  /\ (parse_user_data buf = Raise UnicodeDecodeError
      \/ exists r,
           parse_user_data buf = Ok r
           /\ utcfromtimestamp (u32_le_at buf 0x11) = Ok (ts1 r)
           /\ utcfromtimestamp (u32_le_at buf 0x19) = Ok (ts2 r)
           /\ id r = license_id_at buf 0x1D).
Proof.
  intros Hlen Hno. split; [now apply find_nul_absent|].
  destruct (parse_user_data_outcomes buf Hlen) as [H | [r H]].
  - left. exact H.
  - right. exists r. split; [exact H|].
    destruct (parse_user_data_fields buf r H) as (_ & H1 & H2 & H3 & _).
    auto.
Qed.

Lemma unterminated_blob_no_nul : ~ In x00 (skipn 0x23 unterminated_blob).
Proof.
  change (skipn 0x23 unterminated_blob) with (repeat x41 93).
  intros H. apply repeat_spec in H. discriminate H.
Qed.

Lemma parse_user_data_missing_terminator_witness :
  find unterminated_blob [x00] 0x23 = -1.
Proof.
  refine (proj1 (parse_user_data_missing_terminator unterminated_blob _ _)).
  - reflexivity.
  - exact unterminated_blob_no_nul.
Defined.

(** C2, as stated, fails on [unterminated_blob]: the buffer has 128 bytes
    and no zero byte from offset 0x23 on, yet [parse_user_data] raises
    nothing and returns a record. *)
Lemma missing_terminator_returns_record :
  len unterminated_blob = 0x80
  /\ ~ In x00 (skipn 0x23 unterminated_blob)
  /\ parse_user_data unterminated_blob
     = Ok (mk_user_data (mk_datetime 2004 9 10 5 53 5)
             (mk_datetime 2004 9 10 5 53 5) "41-4141-4141-41"
             (repeat 0x41 92))
  /\ forall e, parse_user_data unterminated_blob <> Raise e.
Proof.
  assert (H : parse_user_data unterminated_blob
              = Ok (mk_user_data (mk_datetime 2004 9 10 5 53 5)
                      (mk_datetime 2004 9 10 5 53 5) "41-4141-4141-41"
                      (repeat 0x41 92))) by (vm_compute; reflexivity).
  split; [reflexivity|]. split; [exact unterminated_blob_no_nul|].
  split; [exact H|]. intros e He. rewrite H in He. discriminate He.
Qed.

Lemma byte_at_window (buf : bytes) (off n k : nat) :
  byte_at buf (off + k)
  = byte_at (firstn n (skipn off buf) ++ skipn n (skipn off buf)) k.
Proof. now rewrite firstn_skipn, byte_at_skipn. Qed.

(** C5. For every successfully decoded buffer, the [id] field is the six
    bytes [b0..b5] at offsets 0x1D to 0x22, each rendered as two uppercase
    hexadecimal digits, joined in the pattern [b0-b1b2-b3b4-b5]; in
    particular the bytes AB CD EF 01 23 45 yield ["AB-CDEF-0123-45"]. *)
Theorem license_id_format (buf : bytes) (r : user_data) :
  parse_user_data buf = Ok r ->
  id r = license_id_at buf 0x1D
  /\ String.length (id r) = 15%nat
  /\ (firstn 6 (skipn 0x1D buf) = [xab; xcd; xef; x01; x23; x45] ->
      id r = "AB-CDEF-0123-45"%string).
Proof.
  intros H.
  destruct (parse_user_data_fields buf r H) as (_ & _ & _ & Hid & _).
  rewrite Hid. split; [reflexivity|]. split; [reflexivity|].
  intros Hb. unfold license_id_at.
  change (byte_at buf 0x1D) with (byte_at buf (0x1D + 0)).
  rewrite !(byte_at_window buf 0x1D 6), Hb. reflexivity.
Qed.

Lemma sample_blob_decodes : parse_user_data sample_blob = Ok sample_record.
Proof. vm_compute. reflexivity. Qed.

Lemma license_id_format_witness : id sample_record = "AB-CDEF-0123-45"%string.
Proof.
  refine (proj2 (proj2 (license_id_format sample_blob sample_record _)) _).
  - exact sample_blob_decodes.
  - reflexivity.
Defined.

(** C6. For every successfully decoded buffer, [ts1] is the UTC instant of
    the unsigned 32-bit little-endian integer at offset 0x11 and [ts2] that
    of the one at offset 0x19, both counted in seconds since the epoch; a
    field value of 0 decodes to 1970-01-01T00:00:00 and is not turned into
    an absent value. *)
Theorem timestamps_decode (buf : bytes) (r : user_data) :
  parse_user_data buf = Ok r ->
  utcfromtimestamp (u32_le_at buf 0x11) = Ok (ts1 r)
  /\ utcfromtimestamp (u32_le_at buf 0x19) = Ok (ts2 r)
  /\ seconds_since_epoch (ts1 r) = u32_le_at buf 0x11
  /\ seconds_since_epoch (ts2 r) = u32_le_at buf 0x19
  /\ (u32_le_at buf 0x11 = 0 -> ts1 r = epoch)
  /\ (u32_le_at buf 0x19 = 0 -> ts2 r = epoch).
Proof.
  intros H.
  destruct (parse_user_data_fields buf r H) as (_ & H1 & H2 & _).
  split; [exact H1|]. split; [exact H2|].
  split; [eapply utcfromtimestamp_seconds;
          [apply u32_le_at_range | exact H1]|].
  split; [eapply utcfromtimestamp_seconds;
          [apply u32_le_at_range | exact H2]|].
  split; intros Hz; rewrite Hz, utcfromtimestamp_0 in *; congruence.
Qed.

Lemma timestamps_decode_witness : ts2 sample_record = epoch.
Proof.
  refine (proj2 (proj2 (proj2 (proj2 (proj2
            (timestamps_decode sample_blob sample_record _))))) _).
  - exact sample_blob_decodes.
  - reflexivity.
Defined.

(** *** [get_userdata] *)

(** C10, as the orchestrator behaves.  When the raw blob is classified as
    plaintext, it is truncated to its first 128 bytes before decoding;
    hence a plaintext blob longer than 128 bytes (or of exactly 128) passes
    the length check and decodes exactly as its first 128 bytes do (to a
    record, unless the name is not valid UTF-8), while a plaintext blob
    shorter than 128 bytes reaches the decoder unpadded and triggers its
    length error. *)
Theorem get_userdata_plaintext (netnode : Netnode) (blob : bytes) :
  supval netnode 0x0 = Ok blob ->
  is_encrypted blob = false ->
  get_userdata netnode = parse_user_data (slice blob 0 0x80)
  /\ (0x80 <= len blob ->
      len (slice blob 0 0x80) = 0x80
      /\ get_userdata netnode <> Raise length_error
      /\ (get_userdata netnode = Raise UnicodeDecodeError
          \/ exists r, get_userdata netnode = Ok r))
  /\ (len blob < 0x80 ->
      slice blob 0 0x80 = blob
      /\ get_userdata netnode = Raise length_error).
Proof.
  intros Hsup Hplain.
  assert (Hg : get_userdata netnode = parse_user_data (slice blob 0 0x80)).
  { unfold get_userdata. rewrite Hsup. cbn [bind]. rewrite Hplain.
    reflexivity. }
  rewrite Hg. split; [reflexivity|].
  rewrite slice_prefix by lia. change (Z.to_nat 0x80) with 0x80%nat.
  split.
  - intros Hlen.
    assert (Hl : len (firstn 0x80 blob) = 0x80).
    { unfold len in *. rewrite length_firstn. lia. }
    split; [exact Hl|].
    destruct (parse_user_data_outcomes _ Hl) as [H | [r H]]; rewrite H.
    + split; [discriminate | left; reflexivity].
    + split; [discriminate | right; eauto].
  - intros Hlen.
    assert (Hf : firstn 0x80 blob = blob).
    { apply firstn_all2. unfold len in Hlen. lia. }
    rewrite Hf. split; [reflexivity|].
    apply parse_user_data_wrong_length. lia.
Qed.

Lemma get_userdata_plaintext_witness :
  get_userdata (netnode_of (sample_blob ++ [x01; x02]))
  = parse_user_data (slice (sample_blob ++ [x01; x02]) 0 0x80).
Proof.
  refine (proj1 (get_userdata_plaintext
                   (netnode_of (sample_blob ++ [x01; x02]))
                   (sample_blob ++ [x01; x02]) _ _)).
  - reflexivity.
  - vm_compute. reflexivity.
Defined.

(** A plaintext blob longer than 128 bytes that carries a well-formed
    record decodes to it. *)
Example get_userdata_long_plaintext :
  get_userdata (netnode_of (sample_blob ++ [x01; x02])) = Ok sample_record.
Proof. vm_compute. reflexivity. Qed.

(** C10, as stated, fails on [bad_name_blob]: the blob is longer than 128
    bytes and is classified as plaintext, but it does not decode
    successfully. *)
Lemma long_plaintext_blob_not_decoded :
  0x80 < len bad_name_blob
  /\ is_encrypted bad_name_blob = false
  /\ get_userdata (netnode_of bad_name_blob) = Raise UnicodeDecodeError
  /\ forall r, get_userdata (netnode_of bad_name_blob) <> Ok r.
Proof.
  assert (H : get_userdata (netnode_of bad_name_blob)
              = Raise UnicodeDecodeError) by (vm_compute; reflexivity).
  split; [reflexivity|]. split; [vm_compute; reflexivity|].
  split; [exact H|]. intros r Hr. rewrite H in Hr. discriminate Hr.
Qed.

(** ** Further properties of the script *)

Import Readback.

(** *** Supporting facts *)

Lemma occurs_at_skipn (buf sub : bytes) (s k : nat) :
  occurs_at (skipn s buf) sub k <-> occurs_at buf sub (s + k).
Proof.
  unfold occurs_at. split; intros H j Hj; specialize (H j Hj);
    rewrite nth_error_skipn in *; rewrite <- H; f_equal; lia.
Qed.

Lemma occurs_at_nul (buf : bytes) (i : nat) :
  occurs_at buf [x00] i <-> nth_error buf i = Some x00.
Proof.
  unfold occurs_at. cbn [List.length]. split.
  - intros H. specialize (H 0%nat ltac:(lia)).
    now rewrite Nat.add_0_r in H.
  - intros H k Hk. replace k with 0%nat by lia.
    now rewrite Nat.add_0_r.
Qed.

Lemma find_from_start (buf sub : bytes) (s : nat) :
  (s <= List.length buf)%nat ->
  find buf sub (Z.of_nat s) = find_from (skipn s buf) sub (Z.of_nat s).
Proof.
  intros Hs. unfold find, clamp_index, len.
  destruct (Z.of_nat (List.length buf) <? Z.of_nat s) eqn:E; [lia|].
  destruct (Z.of_nat s <? 0) eqn:E'; [lia|].
  rewrite Z.min_r, Z.max_r by lia. now rewrite Nat2Z.id.
Qed.

(** [buf.find(b'\x00', s)] is the index of the first zero byte at or
    after [s]. *)
Lemma find_first_nul (buf : bytes) (s k : nat) :
  first_nul_at buf s k -> find buf [x00] (Z.of_nat s) = Z.of_nat k.
Proof.
  intros (Hsk & Hk & Hfirst).
  assert (Hlen : (k < List.length buf)%nat).
  { apply nth_error_Some. rewrite Hk. discriminate. }
  rewrite find_from_start by lia.
  destruct (find_from_spec [x00] (skipn s buf) (Z.of_nat s))
    as [[_ Hno] | (k' & _ & Hr & Hocc & Hmin)].
  - exfalso. apply (Hno (k - s)%nat).
    + rewrite length_skipn. lia.
    + apply occurs_at_skipn, occurs_at_nul.
      now replace (s + (k - s))%nat with k by lia.
  - rewrite Hr. apply occurs_at_skipn, occurs_at_nul in Hocc.
    destruct (Nat.lt_trichotomy (s + k') k) as [Hlt | [Heq | Hgt]].
    + exfalso. apply (Hfirst (s + k')%nat); [lia | exact Hocc].
    + lia.
    + exfalso. apply (Hmin (k - s)%nat); [lia|].
      apply occurs_at_skipn, occurs_at_nul.
      now replace (s + (k - s))%nat with k by lia.
Qed.

Lemma slice_between (buf : bytes) (lo hi : nat) :
  (lo <= hi <= List.length buf)%nat ->
  slice buf (Z.of_nat lo) (Z.of_nat hi) = firstn (hi - lo) (skipn lo buf).
Proof.
  intros H. unfold slice, clamp_index, len.
  destruct (Z.of_nat lo <? 0) eqn:E; [lia|].
  destruct (Z.of_nat hi <? 0) eqn:E'; [lia|].
  rewrite !Z.min_r, !Z.max_r by lia.
  rewrite Nat2Z.id. f_equal. lia.
Qed.

(** With a terminator at [k], the name bytes are [buf[0x23:k]]. *)
Lemma name_bytes_terminated (buf : bytes) (k : nat) :
  first_nul_at buf 0x23 k ->
  name_bytes buf = firstn (k - 0x23) (skipn 0x23 buf).
Proof.
  intros H. unfold name_bytes.
  change 0x23 with (Z.of_nat 0x23). rewrite (find_first_nul buf _ k H).
  destruct H as (Hsk & Hk & _).
  apply slice_between. split; [exact Hsk|].
  apply Nat.lt_le_incl, nth_error_Some. rewrite Hk. discriminate.
Qed.

(** On a 128-byte buffer decoding succeeds exactly when the name bytes
    are valid UTF-8. *)
Lemma parse_user_data_name (buf : bytes) :
  len buf = 0x80 ->
  (forall r, parse_user_data buf = Ok r ->
             utf8_decode (name_bytes buf) = Ok (name r))
  /\ (forall s, utf8_decode (name_bytes buf) = Ok s ->
                exists r, parse_user_data buf = Ok r /\ name r = s)
  /\ (parse_user_data buf = Raise UnicodeDecodeError
      <-> utf8_decode (name_bytes buf) = Raise UnicodeDecodeError).
Proof.
  intros Hlen.
  destruct (parse_user_data_128 buf Hlen) as (d1 & d2 & _ & _ & Hp).
  rewrite Hp.
  destruct (utf8_decode_outcomes (name_bytes buf)) as [E | [s E]];
    rewrite E; cbn [bind].
  - split; [discriminate|]. split; [discriminate|]. tauto.
  - split; [intros r [= <-]; reflexivity|].
    split; [intros s' [= <-]; eauto|].
    split; discriminate.
Qed.

Lemma bind_ok_inv {A B : Type} (m : result A) (k : A -> result B) (b : B) :
  bind m k = Ok b -> exists a, m = Ok a /\ k a = Ok b.
Proof.
  destruct m as [a|e]; cbn [bind]; intros H; [eauto | discriminate H].
Qed.

Lemma byte_val_nonzero (b : byte) : b <> x00 -> byte_val b <> 0.
Proof. intros H E. apply H. now apply byte_val_zero_iff. Qed.

(** A successful decoding yields at most one code point per byte, and a
    zero code point only from a zero byte. *)
Lemma utf8_decode_ok_fuel (n : nat) (bs : bytes) (s : str) :
  (List.length bs <= n)%nat ->
  utf8_decode bs = Ok s ->
  (List.length s <= List.length bs)%nat
  /\ (~ In x00 bs -> ~ In 0 s).
Proof.
  revert bs s. induction n as [|n IH]; intros bs s Hlen H.
  - destruct bs; [|simpl in Hlen; lia].
    injection H as <-. split; [reflexivity | auto].
  - destruct bs as [|b0 t0]; [injection H as <-; split; [reflexivity|auto]|].
    cbn [utf8_decode] in H. cbv zeta in H. cbn [List.length] in Hlen.
    pose proof (byte_val_range b0) as Hb0.
    repeat match type of H with
           | (if ?c then _ else _) = _ => destruct c eqn:?
           | match ?l with [] => _ | _ :: _ => _ end = _ =>
               destruct l; cbn [List.length] in Hlen
           | Raise _ = Ok _ => discriminate H
           end;
      apply bind_ok_inv in H; destruct H as (rest & Hrest & H);
      injection H as <-;
      (apply IH in Hrest; [|lia]); destruct Hrest as [Hl Hz];
      (split; [cbn [List.length]; lia|]);
      intros Hno [Hcp | Hin];
      try (apply Hz; [|exact Hin]; intros Hx; apply Hno;
           cbn [In]; tauto).
    all: unfold in_range, is_cont, cont_bits in *.
    all: repeat match goal with
                | b : byte |- _ =>
                    lazymatch goal with
                    | _ : 0 <= byte_val b < 256 |- _ => fail
                    | _ => pose proof (byte_val_range b)
                    end
                end.
    all: repeat match goal with
                | H : context [if ?c then _ else _] |- _ => destruct c eqn:?
                end.
    all: try lia.
    all: exfalso; apply Hno; left; now apply byte_val_zero_iff.
Qed.

Lemma utf8_decode_ok (bs : bytes) (s : str) :
  utf8_decode bs = Ok s ->
  (List.length s <= List.length bs)%nat /\ (~ In x00 bs -> ~ In 0 s).
Proof. apply (utf8_decode_ok_fuel (List.length bs)). reflexivity. Qed.


Lemma firstn_no_nul (l : bytes) (n : nat) :
  (forall j, (j < n)%nat -> nth_error l j <> Some x00) ->
  ~ In x00 (firstn n l).
Proof.
  intros H Hin. apply In_nth_error in Hin. destruct Hin as [j Hj].
  rewrite nth_error_firstn in Hj.
  destruct (Nat.ltb j n) eqn:E; [|discriminate Hj].
  apply Nat.ltb_lt in E. exact (H j E Hj).
Qed.

(** The name bytes of a 128-byte buffer: at most 92 bytes from offset
    0x23 on, none of them zero. *)
Lemma name_bytes_cases (buf : bytes) :
  len buf = 0x80 ->
  exists n, (n <= 92)%nat
            /\ name_bytes buf = firstn n (skipn 0x23 buf)
            /\ ~ In x00 (name_bytes buf).
Proof.
  intros Hlen.
  assert (Hl : List.length buf = 0x80%nat) by (unfold len in Hlen; lia).
  assert (Hs : List.length (skipn 0x23 buf) = 93%nat)
    by (rewrite length_skipn, Hl; reflexivity).
  assert (H : exists n, (n <= 92)%nat
                        /\ name_bytes buf = firstn n (skipn 0x23 buf)
                        /\ forall j, (j < n)%nat ->
                             nth_error (skipn 0x23 buf) j <> Some x00).
  { unfold name_bytes. change 0x23 with (Z.of_nat 0x23).
    rewrite find_from_start by lia.
    destruct (find_from_spec [x00] (skipn 0x23 buf) (Z.of_nat 0x23))
      as [[Hr Hno] | (k & Hk & Hr & Hocc & Hmin)]; rewrite Hr.
    - exists 92%nat. split; [lia|].
      split; [now apply slice_to_minus_one|].
      intros j Hj Hz. apply (Hno j); [lia|]. now apply occurs_at_nul.
    - assert (Hk' : (k < 93)%nat).
      { rewrite <- Hs. apply nth_error_Some.
        apply occurs_at_nul in Hocc. rewrite Hocc. discriminate. }
      exists k. split; [lia|].
      replace (Z.of_nat 0x23 + Z.of_nat k) with (Z.of_nat (0x23 + k)) by lia.
      rewrite slice_between by lia.
      replace (0x23 + k - 0x23)%nat with k by lia.
      split; [reflexivity|].
      intros j Hj Hz. apply (Hmin j Hj). now apply occurs_at_nul. }
  destruct H as (n & Hn & Hb & Hnz).
  exists n. split; [exact Hn|]. split; [exact Hb|].
  rewrite Hb. now apply firstn_no_nul.
Qed.

Lemma sample_blob_first_nul : first_nul_at sample_blob 0x23 44.
Proof.
  split; [lia|]. split; [reflexivity|].
  intros j Hj.
  assert (Hc : (j = 35 \/ j = 36 \/ j = 37 \/ j = 38 \/ j = 39 \/ j = 40
                \/ j = 41 \/ j = 42 \/ j = 43)%nat) by lia.
  repeat destruct Hc as [Hc | Hc]; subst j; vm_compute; discriminate.
Qed.

Lemma unterminated_blob_decodes :
  parse_user_data unterminated_blob
  = Ok (mk_user_data (mk_datetime 2004 9 10 5 53 5)
          (mk_datetime 2004 9 10 5 53 5) "41-4141-4141-41" (repeat 0x41 92)).
Proof. vm_compute. reflexivity. Qed.

(** *** The name field *)

(** X1. When the first zero byte at or after offset 0x23 of a 128-byte
    buffer is at index [k], the name is the UTF-8 decoding of the bytes at
    offsets 0x23 to [k - 1]: decoding succeeds exactly when these bytes are
    valid UTF-8, and nothing after the terminator is looked at. *)
Theorem name_until_terminator (buf : bytes) (k : nat) :
  len buf = 0x80 ->
  first_nul_at buf 0x23 k ->
  (forall r, parse_user_data buf = Ok r ->
             utf8_decode (firstn (k - 0x23) (skipn 0x23 buf)) = Ok (name r))
  /\ (forall s, utf8_decode (firstn (k - 0x23) (skipn 0x23 buf)) = Ok s ->
                exists r, parse_user_data buf = Ok r /\ name r = s)
  /\ (parse_user_data buf = Raise UnicodeDecodeError
      <-> utf8_decode (firstn (k - 0x23) (skipn 0x23 buf))
          = Raise UnicodeDecodeError).
Proof.
  intros Hlen Hk. rewrite <- (name_bytes_terminated buf k Hk).
  now apply parse_user_data_name.
Qed.

Lemma name_until_terminator_witness :
  utf8_decode (firstn (44 - 0x23) (skipn 0x23 sample_blob))
  = Ok (name sample_record).
Proof.
  refine (proj1 (name_until_terminator sample_blob 44 _ _) sample_record _).
  - reflexivity.
  - exact sample_blob_first_nul.
  - exact sample_blob_decodes.
Defined.

(** X2. When a 128-byte buffer has no zero byte at or after offset 0x23,
    the name is decoded from the 92 bytes at offsets 0x23 to 0x7E: the
    last byte of the buffer is left out of the name. *)
Theorem name_without_terminator (buf : bytes) :
  len buf = 0x80 ->
  ~ In x00 (skipn 0x23 buf) ->
  (forall r, parse_user_data buf = Ok r ->
             utf8_decode (firstn 92 (skipn 0x23 buf)) = Ok (name r))
  /\ (forall s, utf8_decode (firstn 92 (skipn 0x23 buf)) = Ok s ->
                exists r, parse_user_data buf = Ok r /\ name r = s).
Proof.
  intros Hlen Hno.
  rewrite <- (name_bytes_missing_terminator buf Hlen Hno).
  split; now apply parse_user_data_name.
Qed.

Lemma name_without_terminator_witness :
  utf8_decode (firstn 92 (skipn 0x23 unterminated_blob)) = Ok (repeat 0x41 92).
Proof.
  refine (proj1 (name_without_terminator unterminated_blob _ _)
            (mk_user_data (mk_datetime 2004 9 10 5 53 5)
               (mk_datetime 2004 9 10 5 53 5) "41-4141-4141-41"
               (repeat 0x41 92)) _).
  - reflexivity.
  - exact unterminated_blob_no_nul.
  - exact unterminated_blob_decodes.
Defined.

(** X3. The name of every decoded record has at most 92 code points and
    contains no zero code point. *)
Theorem name_bounded_and_nul_free (buf : bytes) (r : user_data) :
  parse_user_data buf = Ok r ->
  (List.length (name r) <= 92)%nat /\ ~ In 0 (name r).
Proof.
  intros H.
  destruct (parse_user_data_fields buf r H) as (Hlen & _ & _ & _ & Hname).
  destruct (name_bytes_cases buf Hlen) as (n & Hn & Hb & Hnz).
  destruct (utf8_decode_ok _ _ Hname) as [Hl Hz].
  split; [|now apply Hz].
  rewrite Hb, length_firstn in Hl. lia.
Qed.

Lemma name_bounded_and_nul_free_witness :
  (List.length (name sample_record) <= 92)%nat /\ ~ In 0 (name sample_record).
Proof.
  exact (name_bounded_and_nul_free sample_blob sample_record
           sample_blob_decodes).
Defined.



(** *** [is_encrypted] on short and on extended buffers *)

Lemma zeros4_nonempty : zeros4 <> [].
Proof. discriminate. Qed.

Lemma occurs_at_zeros4_length (buf : bytes) (k : nat) :
  occurs_at buf zeros4 k -> (k + 4 <= List.length buf)%nat.
Proof.
  intros H. specialize (H 3%nat ltac:(cbn; lia)).
  assert (k + 3 < List.length buf)%nat; [|lia].
  apply nth_error_Some. rewrite H. discriminate.
Qed.

Lemma occurs_at_app (buf t sub : bytes) (j : nat) :
  (j + List.length sub <= List.length buf)%nat ->
  occurs_at (buf ++ t) sub j <-> occurs_at buf sub j.
Proof.
  intros Hj. unfold occurs_at.
  split; intros H k Hk; specialize (H k Hk);
    rewrite nth_error_app1 in * by lia; exact H.
Qed.

(** X5. A buffer that [is_encrypted] classifies as encrypted has at least
    0x84 bytes: shorter buffers, the empty one and a bare 128-byte block
    included, are always classified as plaintext. *)
Theorem is_encrypted_needs_0x84_bytes (buf : bytes) :
  is_encrypted buf = true -> 0x84 <= len buf.
Proof.
  unfold is_encrypted. intros H.
  destruct (find_0_spec buf zeros4 zeros4_nonempty)
    as [[Hr _] | (k & Hr & Hocc & _)]; rewrite Hr in H.
  - discriminate H.
  - apply Z.leb_le in H. apply occurs_at_zeros4_length in Hocc.
    unfold len. lia.
Qed.

Lemma is_encrypted_needs_0x84_bytes_witness :
  0x84 <= len (repeat x01 0x80 ++ repeat x00 4).
Proof.
  refine (is_encrypted_needs_0x84_bytes (repeat x01 0x80 ++ repeat x00 4) _).
  vm_compute. reflexivity.
Defined.

(** X6. Bytes appended to a buffer do not undo its classification once it
    is settled: an encrypted buffer stays encrypted, and a buffer with a
    zero run starting before index 0x80 stays plaintext. *)
Theorem is_encrypted_stable_under_append (buf t : bytes) :
  (is_encrypted buf = true -> is_encrypted (buf ++ t) = true)
  /\ (forall i, (i < 0x80)%nat -> zero_run_at buf i ->
                is_encrypted (buf ++ t) = false).
Proof.
  unfold is_encrypted. split.
  - intros H.
    destruct (find_0_spec buf zeros4 zeros4_nonempty)
      as [[Hr _] | (k & Hr & Hocc & Hmin)]; rewrite Hr in H;
      [discriminate H|].
    apply Z.leb_le in H.
    pose proof (occurs_at_zeros4_length buf k Hocc) as Hk.
    destruct (find_0_spec (buf ++ t) zeros4 zeros4_nonempty)
      as [[_ Hno] | (k' & Hr' & Hocc' & _)].
    + exfalso. apply (Hno k). apply occurs_at_app; [cbn; lia | exact Hocc].
    + rewrite Hr'. apply Z.leb_le.
      destruct (Nat.lt_ge_cases k' k) as [Hlt | Hge]; [|lia].
      exfalso. apply (Hmin k' Hlt).
      apply (occurs_at_app buf t zeros4 k'); [cbn; lia | exact Hocc'].
  - intros i Hi Hrun. apply zero_run_at_occurs in Hrun.
    pose proof (occurs_at_zeros4_length buf i Hrun) as Hlen.
    destruct (find_0_spec (buf ++ t) zeros4 zeros4_nonempty)
      as [[Hr' _] | (k' & Hr' & _ & Hmin')]; rewrite Hr'; [reflexivity|].
    apply Z.leb_gt.
    destruct (Nat.lt_ge_cases k' 0x80) as [Hlt | Hge]; [lia|].
    exfalso. apply (Hmin' i); [lia|].
    apply occurs_at_app; [cbn; lia | exact Hrun].
Qed.

Lemma is_encrypted_stable_under_append_witness :
  is_encrypted ((repeat x01 0x80 ++ repeat x00 4) ++ [x07]) = true.
Proof.
  refine (proj1 (is_encrypted_stable_under_append
                   (repeat x01 0x80 ++ repeat x00 4) [x07]) _).
  vm_compute. reflexivity.
Defined.

(** *** [decrypt] works modulo the key *)

(** X7. [decrypt] does not reject a ciphertext whose integer value is not
    below the modulus: two buffers whose first 128 bytes denote integers
    congruent modulo [HEXRAYS_PUBKEY] decrypt to the same bytes. *)
Theorem decrypt_congruent_inputs (buf buf' : bytes) :
  int_from_bytes_little (slice buf 0 0x80) mod HEXRAYS_PUBKEY
  = int_from_bytes_little (slice buf' 0 0x80) mod HEXRAYS_PUBKEY ->
  decrypt buf = decrypt buf'.
Proof.
  intros H. unfold decrypt, pow_mod.
  rewrite (Zpower_mod (int_from_bytes_little (slice buf 0 0x80)))
    by apply HEXRAYS_PUBKEY_fits.
  rewrite (Zpower_mod (int_from_bytes_little (slice buf' 0 0x80)))
    by apply HEXRAYS_PUBKEY_fits.
  now rewrite H.
Qed.

Lemma decrypt_congruent_inputs_witness :
  decrypt (le_digits 0x80 HEXRAYS_PUBKEY) = decrypt (repeat x00 0x80).
Proof.
  refine (decrypt_congruent_inputs (le_digits 0x80 HEXRAYS_PUBKEY)
            (repeat x00 0x80) _).
  vm_compute. reflexivity.
Defined.

(** *** What [parse_user_data] can raise *)

(** X8. [parse_user_data] raises the length error exactly on the buffers
    that do not have 128 bytes, and the only other exception it raises is
    [UnicodeDecodeError]: the fixed-offset reads never fail with
    [struct.error], and the version error is never raised. *)
Theorem parse_user_data_errors (buf : bytes) :
  (parse_user_data buf = Raise length_error <-> len buf <> 0x80)
  /\ (forall e, parse_user_data buf = Raise e ->
                e = length_error \/ e = UnicodeDecodeError).
Proof.
  destruct (Z.eq_dec (len buf) 0x80) as [E | E].
  - destruct (parse_user_data_outcomes buf E) as [H | [r H]]; rewrite H.
    + split; [split; [discriminate | contradiction]|].
      intros e [= <-]. now right.
    + split; [split; [discriminate | contradiction]|]. discriminate.
  - rewrite (parse_user_data_wrong_length buf E).
    split; [tauto|]. intros e [= <-]. now left.
Qed.

(** *** Which bytes the decoder reads *)

Lemma name_bytes_tail (buf : bytes) :
  len buf = 0x80 ->
  name_bytes buf
  = firstn (Z.to_nat (clamp_index 0x80
                        (find_from (skipn 0x23 buf) [x00] 0x23) - 0x23))
      (skipn 0x23 buf).
Proof.
  intros Hlen. unfold name_bytes, slice, find. rewrite Hlen. reflexivity.
Qed.

Lemma byte_at_from (buf : bytes) (n k : nat) :
  byte_at buf (n + k) = byte_at (skipn n buf) k.
Proof. symmetry. apply byte_at_skipn. Qed.

(** X9. The result of [parse_user_data] on a 128-byte buffer depends only
    on the four bytes at offset 0x11 and on the bytes from offset 0x19 on:
    the bytes before 0x11, the version field among them, and the reserved
    field at 0x15 have no influence. *)
Theorem parse_user_data_ignored_bytes (buf buf' : bytes) :
  len buf = 0x80 ->
  len buf' = 0x80 ->
  firstn 4 (skipn 0x11 buf) = firstn 4 (skipn 0x11 buf') ->
  skipn 0x19 buf = skipn 0x19 buf' ->
  parse_user_data buf = parse_user_data buf'.
Proof.
  intros Hlen Hlen' Hts Htail.
  destruct (parse_user_data_128 buf Hlen) as (d1 & d2 & H1 & H2 & Hp).
  destruct (parse_user_data_128 buf' Hlen') as (d1' & d2' & H1' & H2' & Hp').
  assert (E1 : u32_le_at buf 0x11 = u32_le_at buf' 0x11).
  { rewrite <- (u32_le_at_skipn buf 0x11), <- (u32_le_at_skipn buf' 0x11).
    rewrite <- (le_firstn_4 (skipn 0x11 buf)).
    rewrite <- (le_firstn_4 (skipn 0x11 buf')). now rewrite Hts. }
  assert (E2 : u32_le_at buf 0x19 = u32_le_at buf' 0x19).
  { rewrite <- (u32_le_at_skipn buf 0x19), <- (u32_le_at_skipn buf' 0x19).
    now rewrite Htail. }
  assert (E3 : license_id_at buf 0x1D = license_id_at buf' 0x1D).
  { unfold license_id_at.
    change 0x1D%nat with (0x19 + 4)%nat. rewrite <- !Nat.add_assoc.
    rewrite !(byte_at_from buf 0x19), !(byte_at_from buf' 0x19).
    now rewrite Htail. }
  assert (E4 : name_bytes buf = name_bytes buf').
  { rewrite !name_bytes_tail by assumption.
    change 0x23%nat with (10 + 0x19)%nat.
    rewrite <- !skipn_skipn. now rewrite Htail. }
  rewrite Hp, Hp'. rewrite E1 in H1. rewrite E2 in H2.
  rewrite H1 in H1'. rewrite H2 in H2'.
  injection H1' as <-. injection H2' as <-.
  now rewrite E3, E4.
Qed.

Lemma parse_user_data_ignored_bytes_witness :
  parse_user_data sample_blob = parse_user_data sample_blob_variant.
Proof.
  refine (parse_user_data_ignored_bytes sample_blob sample_blob_variant
            _ _ _ _); reflexivity.
Defined.

(** *** The identifier read back *)

Lemma unhex_hex (b : byte) :
  16 * unhex_digit (upper_hex_digit (byte_val b / 16))
  + unhex_digit (upper_hex_digit (byte_val b mod 16)) = byte_val b.
Proof. destruct b; reflexivity. Qed.

Lemma upper_hex_digit_ok (b : byte) :
  is_upper_hex (upper_hex_digit (byte_val b / 16)) = true
  /\ is_upper_hex (upper_hex_digit (byte_val b mod 16)) = true.
Proof. destruct b; split; reflexivity. Qed.

Lemma unhex_license_id (buf : bytes) (off : nat) :
  unhex_id (license_id_at buf off)
  = [byte_at buf off; byte_at buf (off + 1); byte_at buf (off + 2);
     byte_at buf (off + 3); byte_at buf (off + 4); byte_at buf (off + 5)].
Proof.
  unfold license_id_at, hex_pair, unhex_id, byte_at.
  cbn [append list_ascii_of_string]. now rewrite !unhex_hex.
Qed.

Lemma firstn_6_nth (l : bytes) :
  (6 <= List.length l)%nat ->
  map byte_val (firstn 6 l)
  = [byte_at l 0; byte_at l 1; byte_at l 2;
     byte_at l 3; byte_at l 4; byte_at l 5].
Proof.
  intros H. destruct l as [|a0 [|a1 [|a2 [|a3 [|a4 [|a5 t]]]]]];
    cbn [List.length] in H; try lia. reflexivity.
Qed.

Lemma id_bytes_values (buf : bytes) :
  len buf = 0x80 ->
  map byte_val (id_bytes buf)
  = [byte_at buf 0x1D; byte_at buf (0x1D + 1); byte_at buf (0x1D + 2);
     byte_at buf (0x1D + 3); byte_at buf (0x1D + 4); byte_at buf (0x1D + 5)].
Proof.
  intros Hlen. unfold id_bytes. rewrite firstn_6_nth.
  - rewrite !byte_at_skipn. reflexivity.
  - rewrite length_skipn. unfold len in Hlen. lia.
Qed.

Lemma map_byte_val_inj (xs ys : bytes) :
  map byte_val xs = map byte_val ys -> xs = ys.
Proof.
  revert ys. induction xs as [|x xs IH]; intros [|y ys] H;
    try discriminate H; [reflexivity|].
  injection H as Hx Ht. f_equal; [now apply byte_val_inj | now apply IH].
Qed.

(** X10. The identifier of a decoded record determines the six bytes it
    was rendered from: reading its hexadecimal pairs back gives the values
    of the bytes at offsets 0x1D to 0x22, so two buffers that decode to the
    same identifier carry the same identifier bytes. *)
Theorem license_id_round_trip (buf : bytes) (r : user_data) :
  parse_user_data buf = Ok r ->
  unhex_id (id r) = map byte_val (id_bytes buf)
  /\ forall buf' r', parse_user_data buf' = Ok r' ->
                     id r' = id r -> id_bytes buf' = id_bytes buf.
Proof.
  intros H.
  assert (Hrt : forall b q, parse_user_data b = Ok q ->
                            unhex_id (id q) = map byte_val (id_bytes b)).
  { intros b q Hq.
    destruct (parse_user_data_fields b q Hq) as (Hlen & _ & _ & Hid & _).
    now rewrite Hid, unhex_license_id, id_bytes_values. }
  split; [now apply Hrt|].
  intros buf' r' H' Hid. apply map_byte_val_inj.
  rewrite <- (Hrt _ _ H), <- (Hrt _ _ H'). now rewrite Hid.
Qed.

Lemma license_id_round_trip_witness :
  unhex_id (id sample_record) = map byte_val (id_bytes sample_blob).
Proof.
  exact (proj1 (license_id_round_trip sample_blob sample_record
                  sample_blob_decodes)).
Defined.

(** X11. The identifier of every decoded record has the form
    [XX-XXXX-XXXX-XX]: twelve characters from ['0'..'9'] and ['A'..'F'],
    with dashes as its third, eighth and thirteenth characters. *)
Theorem license_id_shape (buf : bytes) (r : user_data) :
  parse_user_data buf = Ok r -> id_shape (id r) = true.
Proof.
  intros H.
  destruct (parse_user_data_fields buf r H) as (_ & _ & _ & Hid & _).
  rewrite Hid. unfold license_id_at, hex_pair, id_shape, byte_at.
  cbn [append list_ascii_of_string].
  repeat match goal with
         | |- context [upper_hex_digit (byte_val ?b / 16)] =>
             let Hh := fresh in let Hl := fresh in
             destruct (upper_hex_digit_ok b) as [Hh Hl];
             rewrite Hh, Hl; clear Hh Hl
         end.
  reflexivity.
Qed.

Lemma license_id_shape_witness : id_shape (id sample_record) = true.
Proof.
  exact (license_id_shape sample_blob sample_record sample_blob_decodes).
Defined.

(** *** The range of the timestamps *)

Lemma utcfromtimestamp_year_range (t : Z) (d : datetime) :
  0 <= t < 2 ^ 32 -> utcfromtimestamp t = Ok d -> 1970 <= year d <= 2106.
Proof.
  intros Ht H. change (2 ^ 32) with 4294967296 in Ht.
  assert (Hd : 0 <= t / 86400 <= 49710) by (Z.div_mod_to_equations; lia).
  unfold utcfromtimestamp in H.
  assert (Hy : 1970 <= fst (fst (ord_to_ymd (epoch_ordinal + t / 86400)))
               <= 2106).
  { generalize dependent (t / 86400). clear. intros q Hq.
    unfold ord_to_ymd, epoch_ordinal. cbv zeta.
    destruct (_ || _) eqn:E; cbn [fst].
    - apply orb_true_iff in E. rewrite !Z.eqb_eq in E.
      Z.div_mod_to_equations. lia.
    - apply orb_false_iff in E. rewrite !Z.eqb_neq in E.
      destruct (_ <? _); cbn [fst]; Z.div_mod_to_equations; lia. }
  destruct (ord_to_ymd (epoch_ordinal + t / 86400)) as [[y m] dd].
  cbn [fst] in Hy.
  destruct ((y <? 1) || (9999 <? y)); [discriminate H|].
  injection H as <-. exact Hy.
Qed.

(** X12. Both timestamps of every decoded record are calendar instants
    between 1970 and 2106: the year lies in that range, the month in 1..12,
    the day within the month, and the time of day within 24 hours. *)
Theorem timestamps_in_range (buf : bytes) (r : user_data) :
  parse_user_data buf = Ok r ->
  forall t, t = ts1 r \/ t = ts2 r ->
    1970 <= year t <= 2106
    /\ 1 <= month t <= 12
    /\ 1 <= day t <= days_in_month (year t) (month t)
    /\ 0 <= hour t < 24 /\ 0 <= minute t < 60 /\ 0 <= second t < 60.
Proof.
  intros H t Ht.
  destruct (parse_user_data_fields buf r H) as (_ & H1 & H2 & _).
  destruct Ht as [-> | ->].
  - split.
    + exact (utcfromtimestamp_year_range _ _ (u32_le_at_range buf 0x11) H1).
    + apply (utcfromtimestamp_seconds _ _ (u32_le_at_range buf 0x11) H1).
  - split.
    + exact (utcfromtimestamp_year_range _ _ (u32_le_at_range buf 0x19) H2).
    + apply (utcfromtimestamp_seconds _ _ (u32_le_at_range buf 0x19) H2).
Qed.

Lemma timestamps_in_range_witness : 1970 <= year (ts1 sample_record) <= 2106.
Proof.
  exact (proj1 (timestamps_in_range sample_blob sample_record
                  sample_blob_decodes (ts1 sample_record)
                  (or_introl eq_refl))).
Defined.

(** *** [get_userdata] *)

Lemma get_userdata_unfold (netnode : Netnode) (blob : bytes) :
  supval netnode 0x0 = Ok blob ->
  get_userdata netnode
  = (if is_encrypted blob
     then (out <- decrypt blob ;; parse_user_data out)
     else parse_user_data (firstn 0x80 blob)).
Proof.
  intros H. unfold get_userdata. rewrite H. cbn [bind].
  destruct (is_encrypted blob); cbn [bind]; [reflexivity|].
  now rewrite slice_prefix by lia.
Qed.

Lemma len_firstn_0x80 (blob : bytes) :
  0x80 <= len blob -> len (firstn 0x80 blob) = 0x80.
Proof. unfold len. rewrite length_firstn. lia. Qed.

Lemma is_encrypted_long (blob : bytes) :
  is_encrypted blob = true -> 0x84 <= len blob.
Proof.
  unfold is_encrypted. intros H.
  destruct (find_0_spec blob zeros4 zeros4_nonempty)
    as [[Hr _] | (k & Hr & Hocc & _)]; rewrite Hr in H.
  - discriminate H.
  - apply Z.leb_le in H. apply occurs_at_zeros4_length in Hocc.
    unfold len. lia.
Qed.

(** X13. On the encrypted path the decoder always receives exactly 128
    bytes: [get_userdata] returns what [parse_user_data] makes of the
    decrypted block, which is a record or the UTF-8 decoding error, never
    the length error. *)
Theorem get_userdata_encrypted (netnode : Netnode) (blob : bytes) :
  supval netnode 0x0 = Ok blob ->
  is_encrypted blob = true ->
  exists out,
    decrypt blob = Ok out
    /\ len out = 0x80
    /\ get_userdata netnode = parse_user_data out
    /\ (get_userdata netnode = Raise UnicodeDecodeError
        \/ exists r, get_userdata netnode = Ok r).
Proof.
  intros Hsup Henc.
  destruct (decrypt_returns blob) as (out & Hd & Hl & _).
  assert (Hlen : len out = 0x80) by (unfold len; rewrite Hl; reflexivity).
  exists out. split; [exact Hd|]. split; [exact Hlen|].
  rewrite (get_userdata_unfold netnode blob Hsup), Henc, Hd. cbn [bind].
  split; [reflexivity|]. now apply parse_user_data_outcomes.
Qed.

Lemma get_userdata_encrypted_witness :
  exists out,
    decrypt (repeat x01 0x80 ++ repeat x00 4) = Ok out /\ len out = 0x80.
Proof.
  destruct (get_userdata_encrypted
              (netnode_of (repeat x01 0x80 ++ repeat x00 4))
              (repeat x01 0x80 ++ repeat x00 4))
    as (out & Hd & Hl & _).
  - reflexivity.
  - vm_compute. reflexivity.
  - exists out. split; [exact Hd | exact Hl].
Defined.

(** X14. A raw blob of fewer than 0x84 bytes is never decrypted: whatever
    it contains, [get_userdata] decodes its first 128 bytes as they are.
    A bare 128-byte ciphertext is therefore parsed as plaintext. *)
Theorem get_userdata_short_blob_not_decrypted
  (netnode : Netnode) (blob : bytes) :
  supval netnode 0x0 = Ok blob ->
  len blob < 0x84 ->
  get_userdata netnode = parse_user_data (slice blob 0 0x80).
Proof.
  intros Hsup Hlen.
  rewrite (get_userdata_unfold netnode blob Hsup).
  rewrite slice_prefix by lia. change (Z.to_nat 0x80) with 0x80%nat.
  destruct (is_encrypted blob) eqn:E; [|reflexivity].
  apply is_encrypted_long in E. lia.
Qed.

Lemma get_userdata_short_blob_not_decrypted_witness :
  get_userdata (netnode_of (repeat x01 0x80))
  = parse_user_data (slice (repeat x01 0x80) 0 0x80).
Proof.
  refine (get_userdata_short_blob_not_decrypted
            (netnode_of (repeat x01 0x80)) (repeat x01 0x80) _ _);
    reflexivity.
Defined.

(** X15. When [supval] returns a blob, [get_userdata] raises the length
    error exactly when the blob has fewer than 128 bytes. *)
Theorem get_userdata_length_error_iff (netnode : Netnode) (blob : bytes) :
  supval netnode 0x0 = Ok blob ->
  (get_userdata netnode = Raise length_error <-> len blob < 0x80).
Proof.
  intros Hsup. rewrite (get_userdata_unfold netnode blob Hsup).
  destruct (is_encrypted blob) eqn:E.
  - apply is_encrypted_long in E.
    destruct (decrypt_returns blob) as (out & Hd & Hl & _).
    rewrite Hd. cbn [bind].
    assert (Hlen : len out = 0x80) by (unfold len; rewrite Hl; reflexivity).
    destruct (parse_user_data_outcomes out Hlen) as [H | [r H]]; rewrite H;
      split; try discriminate; lia.
  - destruct (Z.lt_ge_cases (len blob) 0x80) as [Hlt | Hge].
    + rewrite parse_user_data_wrong_length; [tauto|].
      unfold len in *. rewrite length_firstn. lia.
    + destruct (parse_user_data_outcomes _ (len_firstn_0x80 blob Hge))
        as [H | [r H]]; rewrite H; split; try discriminate; lia.
Qed.

Lemma get_userdata_length_error_iff_witness :
  get_userdata (netnode_of (bytes_of [1; 2; 3])) = Raise length_error.
Proof.
  refine (proj2 (get_userdata_length_error_iff
                   (netnode_of (bytes_of [1; 2; 3])) (bytes_of [1; 2; 3]) _)
            _); reflexivity.
Defined.

(** X16. Every exception [get_userdata] raises is the one [supval] raised,
    the length error or the UTF-8 decoding error: decryption never fails,
    and the version error is never raised. *)
Theorem get_userdata_errors (netnode : Netnode) (e : exn) :
  get_userdata netnode = Raise e ->
  supval netnode 0x0 = Raise e \/ e = length_error \/ e = UnicodeDecodeError.
Proof.
  intros H. destruct (supval netnode 0x0) as [blob | e'] eqn:Hsup.
  - right. rewrite (get_userdata_unfold netnode blob Hsup) in H.
    assert (Hp : forall b, parse_user_data b = Raise e ->
                           e = length_error \/ e = UnicodeDecodeError).
    { intros b Hb. destruct (Z.eq_dec (len b) 0x80) as [El | El].
      - destruct (parse_user_data_outcomes b El) as [H' | [r H']];
          rewrite H' in Hb; [injection Hb as <-; now right | discriminate Hb].
      - rewrite (parse_user_data_wrong_length b El) in Hb.
        injection Hb as <-. now left. }
    destruct (is_encrypted blob).
    + destruct (decrypt_returns blob) as (out & Hd & _).
      rewrite Hd in H. cbn [bind] in H. now apply (Hp out).
    + now apply (Hp (firstn 0x80 blob)).
  - left. unfold get_userdata in H. rewrite Hsup in H. cbn [bind] in H.
    now injection H as ->.
Qed.

Lemma get_userdata_errors_witness :
  supval (netnode_of bad_name_blob) 0x0 = Raise UnicodeDecodeError
  \/ UnicodeDecodeError = length_error
  \/ UnicodeDecodeError = UnicodeDecodeError.
Proof.
  refine (get_userdata_errors (netnode_of bad_name_blob)
            UnicodeDecodeError _).
  vm_compute. reflexivity.
Defined.
